(** * notePlayer: the 88-key table and the three note builders

    A shallow embedding of [src/notePlayer.js].  JavaScript numbers that
    carry a frequency, a duration or a volume are IEEE-754 binary64 values
    and are modelled by Rocq's primitive floats, so that the table is the
    very sequence of doubles the program computes.  Numbers that only count
    (the key number, the octave index) are modelled by [Z].

    The program is effectful in three ways that matter here: it writes to
    the console, it draws a random duration, and it may instantiate a
    WebAudio [AudioContext].  These are threaded through an explicit
    [World]; exceptions are a [Throw] result, caught by [try_catch] exactly
    where the source has a [try { } catch]. *)

From Stdlib Require Import Floats ZArith QArith Qabs List String Ascii Bool Lia.
From Stdlib Require Import DecimalString Sorted.
Import ListNotations.

Local Open Scope string_scope.
Local Open Scope Z_scope.

(** ** JavaScript values *)

(** A slot that holds [undefined], [null] or a proper value of type [A].
    A property that was never assigned reads as [undefined]. *)
Inductive js (A : Type) : Type :=
| undefined
| null
| val (a : A).
Arguments undefined {A}.
Arguments null {A}.
Arguments val {A} a.

(** [String.prototype.substr(start, length)] (ECMAScript B.2.3.1). *)
Definition substr (start len : Z) (s : string) : string :=
  let size := Z.of_nat (String.length s) in
  let from := if start <? 0 then Z.max (size + start) 0 else Z.min start size in
  let count := Z.min (Z.max len 0) (size - from) in
  substring (Z.to_nat from) (Z.to_nat count) s.

(** [string + number] for an integral number: its decimal numeral. *)
Definition number_to_string (z : Z) : string :=
  NilZero.string_of_int (Z.to_int z).

(** [Math.pow(2, 1/12)]: the binary64 value nearest to the twelfth root of
    two (see [Math_pow_2_twelfth_nearest] below), printed by JavaScript as
    1.0594630943592953. *)
Definition Math_pow_2_twelfth : float := 0x1.0f38f92d97963p+0%float.

(** ** The part of lodash the program uses *)

Module lodash.
Section Wrappers.
Context {G A B : Type}.

(** [_(l).map(function (v, k) { ... })] with an iteratee that reads and
    writes globals of type [G]: elements are visited left to right and
    the globals are threaded through. *)
Fixpoint map_from (f : A -> nat -> G -> B * G) (k : nat) (l : list A) (g : G)
  : list B * G :=
  match l with
  | [] => ([], g)
  | v :: rest =>
      let (b, g1) := f v k g in
      let (bs, g2) := map_from f (S k) rest g1 in
      (b :: bs, g2)
  end.

Definition map (f : A -> nat -> G -> B * G) (l : list A) (g : G) : list B * G :=
  map_from f 0 l g.

(** [dropRightWhile(function (e, i) { ... })]: scanning from the right end,
    elements are dropped as long as the predicate holds of the element and
    its index. *)
Fixpoint dropRightWhile_from (p : A -> nat -> bool) (i : nat) (l : list A)
  : list A :=
  match l with
  | [] => []
  | e :: rest =>
      match dropRightWhile_from p (S i) rest with
      | [] => if p e i then [] else [e]
      | kept => e :: kept
      end
  end.

Definition dropRightWhile (p : A -> nat -> bool) (l : list A) : list A :=
  dropRightWhile_from p 0 l.

(** [find]: the first element satisfying the predicate, or [undefined],
    here [None]. *)
Definition find (p : A -> bool) (l : list A) : option A := List.find p l.

(** [Array.prototype.reduce] without an initial value: the accumulator
    starts at the first element; [None] stands for the [TypeError] raised
    on an empty array. *)
Definition reduce (f : A -> A -> A) (l : list A) : option A :=
  match l with
  | [] => None
  | first :: rest => Some (fold_left f rest first)
  end.
End Wrappers.

(** [flatten]: one level. *)
Definition flatten {A : Type} (l : list (list A)) : list A := List.concat l.
End lodash.

(** ** The table of keys: [notePlayer.getNotesInfo] *)

Record AudioContext : Type := mkAudioContext { context_id : nat }.

(** The only audio node the builders touch: a context's [destination]. *)
Inductive AudioNode : Type :=
| Destination (ctx : AudioContext).

Definition destination (ctx : AudioContext) : AudioNode := Destination ctx.

(** An element of the table.  [audioContext] is absent from a fresh element
    and assigned by the builders before they call the constructor. *)
Module NoteInfo.
Record t : Type := mk {
  keynb : Z;
  freq : float;
  name : string;
  audioContext : js AudioContext
}.

Definition set_audioContext (ac : js AudioContext) (n : t) : t :=
  {| keynb := keynb n; freq := freq n; name := name n; audioContext := ac |}.
End NoteInfo.

Definition DICT_KEYS : list string :=
  ["A"; "A#"; "B"; "C"; "C#"; "D"; "D#"; "E"; "F"; "F#"; "G"; "G#"].

Definition DICT_OCTAVES : list Z := [0; 1; 2; 3; 4; 5; 6; 7; 8].

(** The two globals the iteratee updates. *)
Record Globals : Type := mkGlobals { KEYNB : Z; FREQ : float }.

Definition initial_globals : Globals :=
  {| KEYNB := 0; FREQ := 0x1.9f4e00a91d08ep+4%float (* 25.95654359874657 *) |}.

(** The inner iteratee: [KEYNB++], [FREQ = FREQ * Math.pow(2, 1/12)], and
    the element built from the updated globals. *)
Definition next_key (v : Z) (v2 : string) (k2 : nat) (g : Globals)
  : NoteInfo.t * Globals :=
  let KEYNB' := KEYNB g + 1 in
  let FREQ' := (FREQ g * Math_pow_2_twelfth)%float in
  ({| NoteInfo.keynb := KEYNB';
      NoteInfo.freq := FREQ';
      NoteInfo.name := (v2 ++ number_to_string v)%string;
      NoteInfo.audioContext := undefined |},
   {| KEYNB := KEYNB'; FREQ := FREQ' |}).

Definition octave_keys (v : Z) (k : nat) (g : Globals) : list NoteInfo.t * Globals :=
  lodash.map (next_key v) DICT_KEYS g.

Definition all_keys : list NoteInfo.t :=
  lodash.flatten (fst (lodash.map octave_keys DICT_OCTAVES initial_globals)).

Definition getNotesInfo : list NoteInfo.t :=
  lodash.dropRightWhile (fun e i => (88 <=? i)%nat) all_keys.

(** ** Exceptions, the console and the world *)

Inductive exn : Type :=
| InvalidNoteName (noteName : string)
    (* throw "Invalid note name: "+noteName *)
| InvalidFrequency (noteFreq : float)
    (* throw "Invalid frequency (out of range): "+noteFreq *)
| TypeError (message : string)
| ReferenceError (message : string).

(** What the program writes to the console, kept structured rather than
    rendered to text. *)
Inductive console_line : Type :=
| log_closest (freq : float) (name : string)
    (* console.log("closest frequency is "+freq+" which is for "+name) *)
| error_raw (err : exn)
    (* console.error(err) *)
| error_NOTEPLAYER (e : exn).
    (* console.error("NOTEPLAYER ERROR: "+e) *)

(** What the global object offers. *)
Inductive Host : Type :=
| NoWindow   (* [window] is not defined, as under Node.js *)
| NoAudio    (* neither [window.AudioContext] nor [window.webkitAudioContext] *)
| WebAudio.  (* one of the two constructors exists *)

(** The part of the environment the builders act on and that outlives a
    call.  The variables the program assigns without declaring them ([n],
    [list], [closest], [DICT_KEYS], [DICT_OCTAVES], [FREQ], [KEYNB]) are
    written before they are read in every call and are not part of it. *)
Record World : Type := mkWorld {
  console : list console_line;        (* lines written so far *)
  host : Host;
  contexts : nat;                     (* AudioContexts instantiated so far *)
  random : nat -> float;              (* successive results of _.random(0.5,3,true) *)
  draws : nat                         (* how many were consumed *)
}.

Definition write_console (line : console_line) (w : World) : World :=
  {| console := console w ++ [line]; host := host w; contexts := contexts w;
     random := random w; draws := draws w |}.

Definition after_draw (w : World) : World :=
  {| console := console w; host := host w; contexts := contexts w;
     random := random w; draws := S (draws w) |}.

Definition after_context (w : World) : World :=
  {| console := console w; host := host w; contexts := S (contexts w);
     random := random w; draws := draws w |}.

Inductive result (A : Type) : Type :=
| Ok (a : A)
| Throw (e : exn).
Arguments Ok {A} a.
Arguments Throw {A} e.

(** Computations over a state [St] that may throw. *)
Definition M (St A : Type) : Type := St -> result A * St.

Definition ret {St A} (a : A) : M St A := fun s => (Ok a, s).

Definition throw {St A} (e : exn) : M St A := fun s => (Throw e, s).

Definition bind {St A B} (m : M St A) (k : A -> M St B) : M St B :=
  fun s =>
    match m s with
    | (Ok a, s') => k a s'
    | (Throw e, s') => (Throw e, s')
    end.

(** [try { body } catch (e) { handler }]: the state reached when the
    exception was thrown is kept. *)
Definition try_catch {St A} (body : M St A) (handler : exn -> M St A) : M St A :=
  fun s =>
    match body s with
    | (Ok a, s') => (Ok a, s')
    | (Throw e, s') => handler e s'
    end.

Declare Scope js_scope.
Delimit Scope js_scope with js.
Notation "x <- m ;; k" := (bind m (fun x => k))
  (at level 100, m at next level, right associativity) : js_scope.
Notation "m ;; k" := (bind m (fun _ => k))
  (at level 100, right associativity) : js_scope.

Definition console_log (line : console_line) : M World unit :=
  fun w => (Ok tt, write_console line w).

(** [_.random(0.5, 3, true)]: the next value of the world's random source. *)
Definition lodash_random : M World float :=
  fun w =>
    (Ok (random w (draws w)), after_draw w).

(** [new (window.AudioContext || window.webkitAudioContext)()]. *)
Definition new_AudioContext : M World AudioContext :=
  fun w =>
    match host w with
    | NoWindow => (Throw (ReferenceError "window is not defined"), w)
    | NoAudio => (Throw (TypeError "undefined is not a constructor"), w)
    | WebAudio =>
        (Ok (mkAudioContext (contexts w)), after_context w)
    end.

(** ** The constructor *)

Record notePlayer : Type := mkNotePlayer {
  pianoKeyNb : js Z;
  frequency : js float;
  octave : js string;
  name : js string;
  duration : js float;
  volume : js float;
  audioContext : js AudioContext;
  destinationNode : js AudioNode
}.

(** The object [new] hands to the constructor as [this]. *)
Definition empty_object : notePlayer :=
  {| pianoKeyNb := undefined; frequency := undefined; octave := undefined;
     name := undefined; duration := undefined; volume := undefined;
     audioContext := undefined; destinationNode := undefined |}.

Definition set_pianoKeyNb (v : js Z) (o : notePlayer) : notePlayer :=
  {| pianoKeyNb := v; frequency := frequency o; octave := octave o;
     name := name o; duration := duration o; volume := volume o;
     audioContext := audioContext o; destinationNode := destinationNode o |}.
Definition set_frequency (v : js float) (o : notePlayer) : notePlayer :=
  {| pianoKeyNb := pianoKeyNb o; frequency := v; octave := octave o;
     name := name o; duration := duration o; volume := volume o;
     audioContext := audioContext o; destinationNode := destinationNode o |}.
Definition set_octave (v : js string) (o : notePlayer) : notePlayer :=
  {| pianoKeyNb := pianoKeyNb o; frequency := frequency o; octave := v;
     name := name o; duration := duration o; volume := volume o;
     audioContext := audioContext o; destinationNode := destinationNode o |}.
Definition set_name (v : js string) (o : notePlayer) : notePlayer :=
  {| pianoKeyNb := pianoKeyNb o; frequency := frequency o; octave := octave o;
     name := v; duration := duration o; volume := volume o;
     audioContext := audioContext o; destinationNode := destinationNode o |}.
Definition set_duration (v : js float) (o : notePlayer) : notePlayer :=
  {| pianoKeyNb := pianoKeyNb o; frequency := frequency o; octave := octave o;
     name := name o; duration := v; volume := volume o;
     audioContext := audioContext o; destinationNode := destinationNode o |}.
Definition set_volume (v : js float) (o : notePlayer) : notePlayer :=
  {| pianoKeyNb := pianoKeyNb o; frequency := frequency o; octave := octave o;
     name := name o; duration := duration o; volume := v;
     audioContext := audioContext o; destinationNode := destinationNode o |}.
Definition set_audioContext (v : js AudioContext) (o : notePlayer) : notePlayer :=
  {| pianoKeyNb := pianoKeyNb o; frequency := frequency o; octave := octave o;
     name := name o; duration := duration o; volume := volume o;
     audioContext := v; destinationNode := destinationNode o |}.
Definition set_destinationNode (v : js AudioNode) (o : notePlayer) : notePlayer :=
  {| pianoKeyNb := pianoKeyNb o; frequency := frequency o; octave := octave o;
     name := name o; duration := duration o; volume := volume o;
     audioContext := audioContext o; destinationNode := v |}.

(** The constructor body runs over [this] and the world. *)
Definition Ctor (A : Type) : Type := M (notePlayer * World) A.

(** [this.field = v]. *)
Definition assign (setter : notePlayer -> notePlayer) : Ctor unit :=
  fun s => (Ok tt, (setter (fst s), snd s)).

Definition this : Ctor notePlayer := fun s => (Ok (fst s), s).

Definition in_world {A} (m : M World A) : Ctor A :=
  fun s => let (r, w) := m (snd s) in (r, (fst s, w)).

(** [ac.destination]: a [TypeError] when [ac] is [undefined] or [null]. *)
Definition get_destination {St} (ac : js AudioContext) : M St (js AudioNode) :=
  match ac with
  | val ctx => ret (val (destination ctx))
  | _ => throw (TypeError "Cannot read property 'destination'")
  end.

Local Open Scope js_scope.

(** The body of [function notePlayer(obj)].  Its return value is
    [undefined] when control falls off the end and [null] from the
    [catch] block. *)
Definition notePlayer_body (obj : NoteInfo.t) : Ctor (js notePlayer) :=
  try_catch
    (assign (set_pianoKeyNb (val (NoteInfo.keynb obj))) ;;
     assign (set_frequency (val (NoteInfo.freq obj))) ;;
     assign (set_octave (val (substr (-1) 1 (NoteInfo.name obj)))) ;;
     assign (set_name (val (NoteInfo.name obj))) ;;
     d <- in_world lodash_random ;;
     assign (set_duration (val d)) ;;
     assign (set_volume (val 1%float)) ;;
     ac <- match NoteInfo.audioContext obj with
           | undefined => (ctx <- in_world new_AudioContext ;; ret (val ctx))
           | given => ret given
           end ;;
     assign (set_audioContext ac) ;;
     self <- this ;;
     dest <- get_destination (audioContext self) ;;
     assign (set_destinationNode dest) ;;
     ret undefined)
    (fun err =>
       in_world (console_log (error_raw err)) ;;
       ret null).

(** [new F(...)]: the body runs on a fresh object; when it returns an
    object that object is the result, and when it returns anything else
    ([undefined], [null]) the result is [this]. *)
Definition new (body : Ctor (js notePlayer)) : M World notePlayer :=
  fun w =>
    match body (empty_object, w) with
    | (Ok (val o), (_, w')) => (Ok o, w')
    | (Ok _, (self, w')) => (Ok self, w')
    | (Throw e, (_, w')) => (Throw e, w')
    end.

(** ** The three builders *)

Definition buildFromName (noteName : string) (audioContext : js AudioContext)
  : M World (js notePlayer) :=
  try_catch
    (match lodash.find (fun e => (NoteInfo.name e =? noteName)%string) getNotesInfo with
     | None => throw (InvalidNoteName noteName)
     | Some n =>
         let n := NoteInfo.set_audioContext audioContext n in
         o <- new (notePlayer_body n) ;;
         ret (val o)
     end)
    (fun e =>
       console_log (error_NOTEPLAYER e) ;;
       ret null).

(** [list[i]] followed by a property read: a [TypeError] when the index is
    out of range. *)
Definition element {St} (list : list NoteInfo.t) (i : nat) : M St NoteInfo.t :=
  match nth_error list i with
  | Some e => ret e
  | None => throw (TypeError "Cannot read property 'freq' of undefined")
  end.

(** The callback given to [reduce]. *)
Definition closer (noteFreq : float) (prev curr : NoteInfo.t) : NoteInfo.t :=
  if (abs (NoteInfo.freq curr - noteFreq) <? abs (NoteInfo.freq prev - noteFreq))%float
  then curr else prev.

Definition buildFromFrequency (noteFreq : float) (audioContext : js AudioContext)
  : M World (js notePlayer) :=
  try_catch
    (let list := getNotesInfo in
     lowest <- element list 0 ;;
     highest <- element list (List.length list - 1) ;;
     if (noteFreq <? NoteInfo.freq lowest)%float || (NoteInfo.freq highest <? noteFreq)%float
     then throw (InvalidFrequency noteFreq)
     else
       closest <- match lodash.reduce (closer noteFreq) list with
                  | Some c => ret c
                  | None => throw (TypeError "Reduce of empty array with no initial value")
                  end ;;
       console_log (log_closest (NoteInfo.freq closest) (NoteInfo.name closest)) ;;
       buildFromName (NoteInfo.name closest) audioContext)
    (fun e =>
       console_log (error_NOTEPLAYER e) ;;
       ret null).

Definition buildFromKeyNb (noteKeyNb : Z) (audioContext : js AudioContext)
  : M World (js notePlayer) :=
  match lodash.find (fun e => NoteInfo.keynb e =? noteKeyNb) getNotesInfo with
  | None => throw (TypeError "Cannot set property 'audioContext' of undefined")
  | Some n =>
      let n := NoteInfo.set_audioContext audioContext n in
      o <- new (notePlayer_body n) ;;
      ret (val o)
  end.

(** ** The mutators *)

Definition setDuration (d : js float) (self : notePlayer) : notePlayer :=
  set_duration (match d with undefined => duration self | _ => d end) self.

Definition setVolume (v : js float) (self : notePlayer) : notePlayer :=
  set_volume (match v with undefined => volume self | _ => v end) self.

(** [setAudioContext]: the test is [ac == void 0], a loose comparison that
    holds of [null] as well as of [undefined]. *)
Definition setAudioContext (ac : js AudioContext) (self : notePlayer) : notePlayer :=
  set_audioContext (match ac with
                    | undefined | null => audioContext self
                    | val _ => ac
                    end) self.

(** The property [audiocontext], all in lower case, that [setDestinationNode]
    reads.  The program only ever assigns [audioContext], so it reads as
    [undefined]. *)
Definition audiocontext (self : notePlayer) : js AudioContext := undefined.

(** [this.destinationNode = (dn === void 0) ? this.audiocontext.destination : dn],
    over [this]. *)
Definition setDestinationNode (dn : js AudioNode) : M notePlayer unit :=
  fun self =>
    (node <- match dn with
             | undefined => get_destination (audiocontext self)
             | _ => ret dn
             end ;;
     fun self' => (Ok tt, set_destinationNode node self')) self.

(** * Vocabulary of the properties *)

(** [strongly_sortedb lt l]: every element is [lt] every later one. *)
Fixpoint strongly_sortedb {A : Type} (lt : A -> A -> bool) (l : list A) : bool :=
  match l with
  | [] => true
  | x :: rest => forallb (lt x) rest && strongly_sortedb lt rest
  end.

(** The rational number a finite double denotes. *)
Definition float_to_Q (x : float) : option Q :=
  match Prim2SF x with
  | S754_zero _ => Some 0%Q
  | S754_finite negative m e =>
      let magnitude := (inject_Z (Z.pos m) * Qpower 2 e)%Q in
      Some (if negative then (- magnitude)%Q else magnitude)
  | _ => None
  end.

(** [within x target tol]: [x] is finite and its relative distance to
    [target] is at most [tol]. *)
Definition within (x : float) (target tol : Q) : Prop :=
  exists q, float_to_Q x = Some q /\ (Qabs (q - target) / Qabs target <= tol)%Q.

Definition before_ltb (a b : NoteInfo.t) : bool := (NoteInfo.freq a <? NoteInfo.freq b)%float.

(** [this] after the six assignments that cannot throw. *)
Definition unwired (obj : NoteInfo.t) (w : World) : notePlayer :=
  {| pianoKeyNb := val (NoteInfo.keynb obj);
     frequency := val (NoteInfo.freq obj);
     octave := val (substr (-1) 1 (NoteInfo.name obj));
     name := val (NoteInfo.name obj);
     duration := val (random w (draws w));
     volume := val 1%float;
     audioContext := undefined;
     destinationNode := undefined |}.

Definition wired (ctx : AudioContext) (o : notePlayer) : notePlayer :=
  set_destinationNode (val (destination ctx)) (set_audioContext (val ctx) o).

(** The contexts created by one construction. *)
Definition contexts_made (handle : js AudioContext) (h : Host) : nat :=
  match handle, h with
  | undefined, WebAudio => 1
  | _, _ => 0
  end.

(** The range test of [buildFromFrequency] against the two end elements. *)
Definition out_of_range (noteFreq : float) (lowest highest : NoteInfo.t) : bool :=
  (noteFreq <? NoteInfo.freq lowest)%float || (NoteInfo.freq highest <? noteFreq)%float.

(** For a frequency taken from the table: it is in range, and the name of
    the closest element leads back to the same key number. *)
Definition leads_back (lowest highest e : NoteInfo.t) : bool :=
  negb (out_of_range (NoteInfo.freq e) lowest highest) &&
  match lodash.reduce (closer (NoteInfo.freq e)) getNotesInfo with
  | Some c =>
      match lodash.find (fun n => (NoteInfo.name n =? NoteInfo.name c)%string) getNotesInfo with
      | Some n => NoteInfo.keynb n =? NoteInfo.keynb e
      | None => false
      end
  | None => false
  end.

(** A note obtained from one of the three builders. *)
Inductive resolved (o : notePlayer) : Prop :=
| resolved_by_name noteName handle w w' :
    buildFromName noteName handle w = (Ok (val o), w') -> resolved o
| resolved_by_frequency noteFreq handle w w' :
    buildFromFrequency noteFreq handle w = (Ok (val o), w') -> resolved o
| resolved_by_key noteKeyNb handle w w' :
    buildFromKeyNb noteKeyNb handle w = (Ok (val o), w') -> resolved o.

(** The value of a one-character string holding a decimal digit. *)
Definition digit_value (s : string) : option Z :=
  match s with
  | String c EmptyString =>
      let code := Z.of_nat (nat_of_ascii c) in
      if (48 <=? code) && (code <=? 57) then Some (code - 48) else None
  | _ => None
  end.

(** The numeric value of the [octave] field. *)
Definition octave_number (o : notePlayer) : option Z :=
  match octave o with
  | val s => digit_value s
  | _ => None
  end.

Definition key_in_1_88 (e : NoteInfo.t) : bool :=
  (1 <=? NoteInfo.keynb e) && (NoteInfo.keynb e <=? 88).

Definition last_is_octave_digit (e : NoteInfo.t) : bool :=
  match digit_value (substr (-1) 1 (NoteInfo.name e)) with
  | Some d => (0 <=? d) && (d <=? 8)
  | None => false
  end.

(** A browser with WebAudio, nothing done yet. *)
Definition browser : World :=
  {| console := []; host := WebAudio; contexts := 0;
     random := fun _ => 1.5%float; draws := 0 |}.

(** Node.js: no [window]. *)
Definition node_js : World :=
  {| console := []; host := NoWindow; contexts := 0;
     random := fun _ => 1.5%float; draws := 0 |}.

(** The note [buildFromKeyNb(49)] returns in [browser]. *)
Definition A4_in_browser : notePlayer :=
  {| pianoKeyNb := val 49;
     frequency := val 0x1.b80000000000ep+8%float;
     octave := val "4";
     name := val "A4";
     duration := val 1.5%float;
     volume := val 1%float;
     audioContext := val (mkAudioContext 0);
     destinationNode := val (Destination (mkAudioContext 0)) |}.

(** What a builder's outcome [r], reached from world [w] with [handle],
    does about audio contexts: a returned note holds the handle that was
    given or, when none was given and the host has WebAudio, a context
    created on the spot; nothing else creates a context. *)
Definition context_accounting (handle : js AudioContext) (w : World)
    (r : result (js notePlayer) * World) : Prop :=
  match fst r with
  | Ok (val o) =>
      contexts (snd r) = (contexts w + contexts_made handle (host w))%nat /\
      audioContext o =
      match handle, host w with
      | undefined, WebAudio => val (mkAudioContext (contexts w))
      | given, _ => given
      end
  | _ => contexts (snd r) = contexts w
  end.

(** The quantity [closer] compares: [Math.abs(e.freq - noteFreq)]. *)
Definition distance (noteFreq : float) (e : NoteInfo.t) : float :=
  abs (NoteInfo.freq e - noteFreq)%float.

(** The note [o] carries the identity of the table element [e]. *)
Definition carries (e : NoteInfo.t) (o : notePlayer) : Prop :=
  pianoKeyNb o = val (NoteInfo.keynb e) /\
  frequency o = val (NoteInfo.freq e) /\
  name o = val (NoteInfo.name e) /\
  octave o = val (substr (-1) 1 (NoteInfo.name e)).

(** The name the generator gives to the element at index [i]: the pitch
    class at [i mod 12] followed by the octave index [i / 12]. *)
Definition key_name (i : nat) : string :=
  (nth (i mod 12) DICT_KEYS "" ++ number_to_string (Z.of_nat (i / 12)))%string.

(** [equal_tempered k q eps]: the positive rational [q] is within a relative
    distance [eps] of [440 * 2^((k - 49) / 12)], the pitch of key [k] in
    twelve-tone equal temperament with key 49 at 440 Hz.  Both bounds are
    compared after raising them to the twelfth power. *)
Definition equal_tempered (k : Z) (q eps : Q) : Prop :=
  (0 < q)%Q /\
  ((1 - eps) ^ 12 * 440 ^ 12 * Qpower 2 (k - 49) <= q ^ 12)%Q /\
  (q ^ 12 <= (1 + eps) ^ 12 * 440 ^ 12 * Qpower 2 (k - 49))%Q.

Definition equal_temperedb (eps : Q) (e : NoteInfo.t) : bool :=
  match float_to_Q (NoteInfo.freq e) with
  | Some q =>
      let ideal := (440 ^ 12 * Qpower 2 (NoteInfo.keynb e - 49))%Q in
      negb (Qle_bool q 0) &&
      Qle_bool ((1 - eps) ^ 12 * ideal) (q ^ 12) &&
      Qle_bool (q ^ 12) ((1 + eps) ^ 12 * ideal)
  | None => false
  end.

(** No two equal strings in the list. *)
Fixpoint distinct_strings (l : list string) : bool :=
  match l with
  | [] => true
  | x :: rest => negb (existsb (String.eqb x) rest) && distinct_strings rest
  end.

(** A note is wired when its destination node is the destination of its own
    audio context, and bare when it has neither a context nor a node. *)
Definition wired_or_bare (o : notePlayer) : Prop :=
  match audioContext o with
  | val ctx => destinationNode o = val (destination ctx)
  | _ => destinationNode o = undefined
  end.

(** What a builder's outcome [r], reached from world [w], does about the
    random source: a returned note has consumed one value, which is its
    duration; nothing else consumes any. *)
Definition draw_accounting (w : World) (r : result (js notePlayer) * World) : Prop :=
  random (snd r) = random w /\
  match fst r with
  | Ok (val o) =>
      draws (snd r) = S (draws w) /\ duration o = val (random w (draws w))
  | _ => draws (snd r) = draws w
  end.

(** The order of the table. *)
Definition key_ltb (a b : NoteInfo.t) : bool := NoteInfo.keynb a <? NoteInfo.keynb b.

(** The world [browser] after [buildFromFrequency(445)] without a handle. *)
Definition browser_after_445 : World :=
  after_context
    (after_draw (write_console (log_closest 0x1.b80000000000ep+8%float "A4") browser)).

(** Two contexts other than the one [browser] creates first. *)
Definition other_context : AudioContext := mkAudioContext 1.

(** How the construction of [o] shows on the console, given the lines
    [before] it: nothing when [o] holds a context, one line written by the
    constructor's [catch] when it does not. *)
Definition construction_logged (before : list console_line) (o : notePlayer)
    (w' : World) : Prop :=
  match audioContext o with
  | val _ => console w' = before
  | _ => exists err, console w' = (before ++ [error_raw err])%list
  end.

(** * Properties *)

(** ** Reading a double exactly *)

(** The constant used for [Math.pow(2, 1/12)] is [m * 2^-52] with [m] the
    integer for which [m - 1/2 < 2^52 * 2^(1/12) < m + 1/2]; the bounds are
    compared after raising them to the twelfth power. *)
Lemma Math_pow_2_twelfth_nearest :
  exists m : positive,
    Prim2SF Math_pow_2_twelfth = S754_finite false m (-52) /\
    (2 * Z.pos m - 1) ^ 12 < 2 * (2 ^ 53) ^ 12 < (2 * Z.pos m + 1) ^ 12.
Proof.
  exists 4771397596969315%positive. split; [reflexivity|].
  split; reflexivity.
Qed.

(** ** lodash *)

Section LodashFacts.
Context {A : Type}.

Lemma dropRightWhile_from_index (n i : nat) (l : list A) :
  lodash.dropRightWhile_from (fun (_ : A) j => (n <=? j)%nat) i l = firstn (n - i) l.
Proof.
  revert i. induction l as [|e rest IH]; intros i; simpl.
  - now rewrite firstn_nil.
  - rewrite IH. destruct (Nat.leb_spec n i) as [Hle|Hlt].
    + replace (n - i)%nat with 0%nat by lia.
      replace (n - S i)%nat with 0%nat by lia. reflexivity.
    + replace (n - i)%nat with (S (n - S i)) by lia. simpl.
      destruct (firstn (n - S i) rest); reflexivity.
Qed.

(** Dropping from the right while the index is at least [n] keeps the
    first [n] elements. *)
Lemma dropRightWhile_index (n : nat) (l : list A) :
  lodash.dropRightWhile (fun (_ : A) j => (n <=? j)%nat) l = firstn n l.
Proof.
  unfold lodash.dropRightWhile. rewrite dropRightWhile_from_index.
  now rewrite Nat.sub_0_r.
Qed.

Lemma find_member (p : A -> bool) (l : list A) (x : A) :
  In x l -> p x = true -> exists y, lodash.find p l = Some y.
Proof.
  unfold lodash.find. intros Hin Hp.
  destruct (List.find p l) as [y|] eqn:Hfind; [now exists y|].
  now rewrite (find_none p l Hfind x Hin) in Hp.
Qed.

Lemma find_absent (p : A -> bool) (l : list A) :
  (forall x, In x l -> p x = false) -> lodash.find p l = None.
Proof.
  unfold lodash.find. induction l as [|x rest IH]; simpl; [reflexivity|].
  intros H. rewrite (H x (or_introl eq_refl)).
  apply IH. intros y Hy. apply H. now right.
Qed.

Lemma find_In (p : A -> bool) (l : list A) (x : A) :
  lodash.find p l = Some x -> In x l /\ p x = true.
Proof. unfold lodash.find. apply find_some. Qed.

(** A selection by [reduce] returns one of the elements. *)
Lemma fold_left_selects (f : A -> A -> A) :
  (forall a b, f a b = a \/ f a b = b) ->
  forall rest first, In (fold_left f rest first) (first :: rest).
Proof.
  intros Hsel. induction rest as [|x rest IH]; intros first; simpl.
  - now left.
  - destruct (Hsel first x) as [E|E]; rewrite E.
    + destruct (IH first) as [H|H]; [now left | right; now right].
    + right. apply IH.
Qed.

Lemma reduce_selects (f : A -> A -> A) (l : list A) :
  (forall a b, f a b = a \/ f a b = b) ->
  l <> [] -> exists c, lodash.reduce f l = Some c /\ In c l.
Proof.
  intros Hsel Hne. destruct l as [|first rest]; [contradiction|].
  eexists. split; [reflexivity|]. now apply fold_left_selects.
Qed.
End LodashFacts.

(** ** Sortedness by computation *)

Lemma strongly_sortedb_sound {A : Type} (lt : A -> A -> bool) (l : list A) :
  strongly_sortedb lt l = true -> StronglySorted (fun a b => lt a b = true) l.
Proof.
  induction l as [|x rest IH]; simpl; intros H; constructor.
  - apply IH. now apply andb_prop in H.
  - apply andb_prop in H as [H _]. apply Forall_forall.
    now apply forallb_forall.
Qed.

(** ** The table *)

Lemma getNotesInfo_truncates : getNotesInfo = firstn 88 all_keys.
Proof. unfold getNotesInfo. apply dropRightWhile_index. Qed.

Lemma all_keys_length : List.length all_keys = 108%nat.
Proof. reflexivity. Qed.

Lemma getNotesInfo_length : List.length getNotesInfo = 88%nat.
Proof.
  rewrite getNotesInfo_truncates, length_firstn, all_keys_length. reflexivity.
Qed.

(** C2: the table has exactly 88 elements, their key numbers are 1, 2, ...,
    88 in this order, and every element has a strictly smaller frequency
    than every element after it. *)
Theorem getNotesInfo_keys_and_frequencies :
  List.length getNotesInfo = 88%nat /\
  List.map NoteInfo.keynb getNotesInfo = List.map Z.of_nat (seq 1 88) /\
  StronglySorted (fun a b => (NoteInfo.freq a <? NoteInfo.freq b)%float = true) getNotesInfo.
Proof.
  split; [|split].
  - exact getNotesInfo_length.
  - vm_compute. reflexivity.
  - apply (strongly_sortedb_sound before_ltb). vm_compute. reflexivity.
Qed.

(** ** The constructor, evaluated symbolically *)

Lemma new_notePlayer_cases (obj : NoteInfo.t) (w : World) :
  new (notePlayer_body obj) w =
  match NoteInfo.audioContext obj with
  | val ctx => (Ok (wired ctx (unwired obj w)), after_draw w)
  | null =>
      (Ok (set_audioContext null (unwired obj w)),
       write_console (error_raw (TypeError "Cannot read property 'destination'"))
         (after_draw w))
  | undefined =>
      match host w with
      | WebAudio =>
          (Ok (wired (mkAudioContext (contexts w)) (unwired obj w)),
           after_context (after_draw w))
      | NoAudio =>
          (Ok (unwired obj w),
           write_console (error_raw (TypeError "undefined is not a constructor"))
             (after_draw w))
      | NoWindow =>
          (Ok (unwired obj w),
           write_console (error_raw (ReferenceError "window is not defined"))
             (after_draw w))
      end
  end.
Proof.
  destruct obj as [k f n [| |ctx]]; destruct w as [lines [] c r d]; reflexivity.
Qed.

(** [new notePlayer(obj)] always yields an object, and the object carries
    the identity of [obj]. *)
Lemma new_notePlayer_identity (obj : NoteInfo.t) (w : World) :
  exists o w',
    new (notePlayer_body obj) w = (Ok o, w') /\
    pianoKeyNb o = val (NoteInfo.keynb obj) /\
    frequency o = val (NoteInfo.freq obj) /\
    octave o = val (substr (-1) 1 (NoteInfo.name obj)) /\
    name o = val (NoteInfo.name obj).
Proof.
  rewrite new_notePlayer_cases.
  destruct (NoteInfo.audioContext obj); [destruct (host w)| |];
    do 2 eexists; (split; [reflexivity|]); repeat split.
Qed.

Lemma new_notePlayer_world (obj : NoteInfo.t) (w : World) :
  let w' := snd (new (notePlayer_body obj) w) in
  contexts w' = (contexts w + contexts_made (NoteInfo.audioContext obj) (host w))%nat /\
  host w' = host w.
Proof.
  rewrite new_notePlayer_cases.
  destruct (NoteInfo.audioContext obj); [destruct (host w) eqn:Eh| |]; simpl;
    rewrite ?Eh; split; lia || reflexivity.
Qed.

Lemma new_notePlayer_stores_handle (obj : NoteInfo.t) (w : World) (o : notePlayer) (w' : World) :
  new (notePlayer_body obj) w = (Ok o, w') ->
  audioContext o =
  match NoteInfo.audioContext obj, host w with
  | undefined, WebAudio => val (mkAudioContext (contexts w))
  | given, _ => given
  end.
Proof.
  rewrite new_notePlayer_cases.
  destruct (NoteInfo.audioContext obj); [destruct (host w)| |];
    intros [= <- _]; reflexivity.
Qed.

(** ** The builders, reduced to [find] and the constructor *)

Ltac run_builder :=
  cbv beta iota zeta delta
    [buildFromName buildFromFrequency buildFromKeyNb try_catch bind ret throw
     element console_log].

Lemma buildFromName_found noteName handle w n o w' :
  lodash.find (fun e => (NoteInfo.name e =? noteName)%string) getNotesInfo = Some n ->
  new (notePlayer_body (NoteInfo.set_audioContext handle n)) w = (Ok o, w') ->
  buildFromName noteName handle w = (Ok (val o), w').
Proof. intros Hfind Hnew. run_builder. rewrite Hfind, Hnew. reflexivity. Qed.

Lemma buildFromName_missing noteName handle w :
  lodash.find (fun e => (NoteInfo.name e =? noteName)%string) getNotesInfo = None ->
  buildFromName noteName handle w =
  (Ok null, write_console (error_NOTEPLAYER (InvalidNoteName noteName)) w).
Proof. intros Hfind. run_builder. rewrite Hfind. reflexivity. Qed.

Lemma buildFromKeyNb_found noteKeyNb handle w n o w' :
  lodash.find (fun e => NoteInfo.keynb e =? noteKeyNb) getNotesInfo = Some n ->
  new (notePlayer_body (NoteInfo.set_audioContext handle n)) w = (Ok o, w') ->
  buildFromKeyNb noteKeyNb handle w = (Ok (val o), w').
Proof. intros Hfind Hnew. run_builder. rewrite Hfind, Hnew. reflexivity. Qed.

Lemma buildFromKeyNb_missing noteKeyNb handle w :
  lodash.find (fun e => NoteInfo.keynb e =? noteKeyNb) getNotesInfo = None ->
  buildFromKeyNb noteKeyNb handle w =
  (Throw (TypeError "Cannot set property 'audioContext' of undefined"), w).
Proof. intros Hfind. run_builder. rewrite Hfind. reflexivity. Qed.

(** A builder that finds [n] returns the object constructed from [n]. *)
Lemma buildFromName_result noteName handle w :
  match lodash.find (fun e => (NoteInfo.name e =? noteName)%string) getNotesInfo with
  | Some n =>
      exists o w',
        new (notePlayer_body (NoteInfo.set_audioContext handle n)) w = (Ok o, w') /\
        buildFromName noteName handle w = (Ok (val o), w')
  | None =>
      buildFromName noteName handle w =
      (Ok null, write_console (error_NOTEPLAYER (InvalidNoteName noteName)) w)
  end.
Proof.
  destruct (lodash.find _ getNotesInfo) as [n|] eqn:Hfind.
  - destruct (new_notePlayer_identity (NoteInfo.set_audioContext handle n) w)
      as (o & w' & Hnew & _).
    exists o, w'. split; [exact Hnew|]. exact (buildFromName_found _ _ _ _ _ _ Hfind Hnew).
  - exact (buildFromName_missing _ _ _ Hfind).
Qed.

Lemma buildFromName_returns noteName handle w :
  exists r w', buildFromName noteName handle w = (Ok r, w').
Proof.
  pose proof (buildFromName_result noteName handle w) as H.
  destruct (lodash.find _ getNotesInfo).
  - destruct H as (o & w' & _ & H). exists (val o), w'. exact H.
  - do 2 eexists. exact H.
Qed.

Lemma closer_selects noteFreq prev curr :
  closer noteFreq prev curr = prev \/ closer noteFreq prev curr = curr.
Proof. unfold closer. destruct (_ <? _)%float; auto. Qed.

Lemma table_ends :
  exists lowest highest,
    nth_error getNotesInfo 0 = Some lowest /\
    nth_error getNotesInfo 87 = Some highest /\
    nth_error getNotesInfo (List.length getNotesInfo - 1) = Some highest /\
    NoteInfo.freq lowest = 27.5%float /\
    NoteInfo.freq highest = 0x1.05a0250c2b965p+12%float.
Proof. vm_compute. do 2 eexists. repeat split. Qed.

Lemma getNotesInfo_not_empty : getNotesInfo <> [].
Proof.
  destruct table_ends as (lowest & highest & H & _).
  intros E. rewrite E in H. discriminate H.
Qed.

Lemma buildFromFrequency_out noteFreq handle w lowest highest :
  nth_error getNotesInfo 0 = Some lowest ->
  nth_error getNotesInfo (List.length getNotesInfo - 1) = Some highest ->
  out_of_range noteFreq lowest highest = true ->
  buildFromFrequency noteFreq handle w =
  (Ok null, write_console (error_NOTEPLAYER (InvalidFrequency noteFreq)) w).
Proof.
  intros Hlo Hhi Hout.
  cbv beta iota zeta delta [buildFromFrequency try_catch bind ret throw element console_log].
  rewrite Hlo, Hhi. cbv beta iota.
  unfold out_of_range in Hout. rewrite Hout. reflexivity.
Qed.

Lemma buildFromFrequency_in noteFreq handle w lowest highest closest :
  nth_error getNotesInfo 0 = Some lowest ->
  nth_error getNotesInfo (List.length getNotesInfo - 1) = Some highest ->
  out_of_range noteFreq lowest highest = false ->
  lodash.reduce (closer noteFreq) getNotesInfo = Some closest ->
  buildFromFrequency noteFreq handle w =
  buildFromName (NoteInfo.name closest) handle
    (write_console (log_closest (NoteInfo.freq closest) (NoteInfo.name closest)) w).
Proof.
  intros Hlo Hhi Hout Hred.
  cbv beta iota zeta delta [buildFromFrequency try_catch bind ret throw element console_log].
  rewrite Hlo, Hhi. cbv beta iota.
  unfold out_of_range in Hout. rewrite Hout, Hred.
  destruct (buildFromName_returns (NoteInfo.name closest) handle
              (write_console (log_closest (NoteInfo.freq closest) (NoteInfo.name closest)) w))
    as (r & w' & E).
  rewrite E. reflexivity.
Qed.

(** Within the range, the closest element is an element of the table, so the
    look-up of its name succeeds and an object is returned. *)
Lemma buildFromFrequency_in_range_returns noteFreq handle w lowest highest :
  nth_error getNotesInfo 0 = Some lowest ->
  nth_error getNotesInfo (List.length getNotesInfo - 1) = Some highest ->
  out_of_range noteFreq lowest highest = false ->
  exists o w', buildFromFrequency noteFreq handle w = (Ok (val o), w').
Proof.
  intros Hlo Hhi Hout.
  destruct (reduce_selects (closer noteFreq) getNotesInfo
              (closer_selects noteFreq) getNotesInfo_not_empty) as (c & Hred & Hin).
  rewrite (buildFromFrequency_in _ handle w _ _ c Hlo Hhi Hout Hred).
  destruct (find_member (fun e => (NoteInfo.name e =? NoteInfo.name c)%string)
              getNotesInfo c Hin (String.eqb_refl _)) as (n & Hfind).
  pose proof (buildFromName_result (NoteInfo.name c) handle
                (write_console (log_closest (NoteInfo.freq c) (NoteInfo.name c)) w)) as H.
  rewrite Hfind in H. destruct H as (o & w' & _ & H). exists o, w'. exact H.
Qed.

Lemma table_leads_back lowest highest :
  nth_error getNotesInfo 0 = Some lowest ->
  nth_error getNotesInfo 87 = Some highest ->
  forallb (leads_back lowest highest) getNotesInfo = true.
Proof.
  intros Hlo Hhi. vm_compute in Hlo, Hhi.
  injection Hlo as <-. injection Hhi as <-.
  vm_compute. reflexivity.
Qed.

Lemma buildFromFrequency_of_element e handle w :
  In e getNotesInfo ->
  exists o w',
    buildFromFrequency (NoteInfo.freq e) handle w = (Ok (val o), w') /\
    pianoKeyNb o = val (NoteInfo.keynb e).
Proof.
  intros Hin.
  destruct table_ends as (lowest & highest & Hlo & Hhi87 & Hhi & _).
  pose proof (table_leads_back lowest highest Hlo Hhi87) as Hall.
  rewrite forallb_forall in Hall. specialize (Hall e Hin).
  unfold leads_back in Hall. apply andb_prop in Hall as [Hrange Hback].
  apply negb_true_iff in Hrange.
  destruct (lodash.reduce (closer (NoteInfo.freq e)) getNotesInfo) as [c|] eqn:Hred;
    [|discriminate].
  destruct (lodash.find _ getNotesInfo) as [n|] eqn:Hfind; [|discriminate].
  apply Z.eqb_eq in Hback.
  rewrite (buildFromFrequency_in _ handle w _ _ c Hlo Hhi Hrange Hred).
  set (w1 := write_console _ w).
  destruct (new_notePlayer_identity (NoteInfo.set_audioContext handle n) w1)
    as (o & w' & Hnew & Hkey & _).
  exists o, w'. split.
  - exact (buildFromName_found _ _ _ _ _ _ Hfind Hnew).
  - rewrite Hkey. simpl. rewrite Hback. reflexivity.
Qed.

(** ** Where a returned object comes from *)

Lemma buildFromName_inv noteName handle w o w' :
  buildFromName noteName handle w = (Ok (val o), w') ->
  exists n,
    In n getNotesInfo /\
    new (notePlayer_body (NoteInfo.set_audioContext handle n)) w = (Ok o, w').
Proof.
  intros Hb.
  destruct (lodash.find (fun e => (NoteInfo.name e =? noteName)%string) getNotesInfo)
    as [n|] eqn:Hfind.
  - destruct (new_notePlayer_identity (NoteInfo.set_audioContext handle n) w)
      as (o1 & w1 & Hnew & _).
    rewrite (buildFromName_found _ _ _ _ _ _ Hfind Hnew) in Hb.
    injection Hb as <- <-. exists n. split; [|exact Hnew].
    exact (proj1 (find_In _ _ _ Hfind)).
  - rewrite (buildFromName_missing _ _ _ Hfind) in Hb. discriminate Hb.
Qed.

Lemma buildFromKeyNb_inv noteKeyNb handle w o w' :
  buildFromKeyNb noteKeyNb handle w = (Ok (val o), w') ->
  exists n,
    In n getNotesInfo /\
    new (notePlayer_body (NoteInfo.set_audioContext handle n)) w = (Ok o, w').
Proof.
  intros Hb.
  destruct (lodash.find (fun e => NoteInfo.keynb e =? noteKeyNb) getNotesInfo)
    as [n|] eqn:Hfind.
  - destruct (new_notePlayer_identity (NoteInfo.set_audioContext handle n) w)
      as (o1 & w1 & Hnew & _).
    rewrite (buildFromKeyNb_found _ _ _ _ _ _ Hfind Hnew) in Hb.
    injection Hb as <- <-. exists n. split; [|exact Hnew].
    exact (proj1 (find_In _ _ _ Hfind)).
  - rewrite (buildFromKeyNb_missing _ _ _ Hfind) in Hb. discriminate Hb.
Qed.

(** Either the frequency is refused, or the builder continues as
    [buildFromName] in a world that differs by one console line. *)
Lemma buildFromFrequency_cases noteFreq handle w :
  buildFromFrequency noteFreq handle w =
    (Ok null, write_console (error_NOTEPLAYER (InvalidFrequency noteFreq)) w) \/
  exists closest,
    In closest getNotesInfo /\
    buildFromFrequency noteFreq handle w =
    buildFromName (NoteInfo.name closest) handle
      (write_console (log_closest (NoteInfo.freq closest) (NoteInfo.name closest)) w).
Proof.
  destruct table_ends as (lowest & highest & Hlo & _ & Hhi & _).
  destruct (out_of_range noteFreq lowest highest) eqn:Hout.
  - left. exact (buildFromFrequency_out _ _ _ _ _ Hlo Hhi Hout).
  - right.
    destruct (reduce_selects (closer noteFreq) getNotesInfo
                (closer_selects noteFreq) getNotesInfo_not_empty) as (c & Hred & Hin).
    exists c. split; [exact Hin|].
    exact (buildFromFrequency_in _ _ _ _ _ _ Hlo Hhi Hout Hred).
Qed.

Lemma buildFromFrequency_inv noteFreq handle w o w' :
  buildFromFrequency noteFreq handle w = (Ok (val o), w') ->
  exists n line,
    In n getNotesInfo /\
    new (notePlayer_body (NoteInfo.set_audioContext handle n)) (write_console line w)
    = (Ok o, w').
Proof.
  intros Hb. destruct (buildFromFrequency_cases noteFreq handle w) as [H|(c & _ & H)];
    rewrite H in Hb.
  - discriminate Hb.
  - apply buildFromName_inv in Hb as (n & Hin & Hnew).
    exists n, (log_closest (NoteInfo.freq c) (NoteInfo.name c)). split; assumption.
Qed.

Lemma resolved_from_table o :
  resolved o ->
  exists n handle w w',
    In n getNotesInfo /\
    new (notePlayer_body (NoteInfo.set_audioContext handle n)) w = (Ok o, w').
Proof.
  intros [s handle w w' H | f handle w w' H | k handle w w' H].
  - apply buildFromName_inv in H as (n & Hin & Hnew).
    exists n, handle, w, w'. split; assumption.
  - apply buildFromFrequency_inv in H as (n & line & Hin & Hnew).
    exists n, handle, (write_console line w), w'. split; assumption.
  - apply buildFromKeyNb_inv in H as (n & Hin & Hnew).
    exists n, handle, w, w'. split; assumption.
Qed.

(** ** Facts about the table obtained by evaluation *)

Lemma table_key_numbers e : In e getNotesInfo -> 1 <= NoteInfo.keynb e <= 88.
Proof.
  assert (H : forallb key_in_1_88 getNotesInfo = true) by (vm_compute; reflexivity).
  rewrite forallb_forall in H. intros Hin. specialize (H e Hin).
  unfold key_in_1_88 in H. lia.
Qed.

Lemma table_names_end_in_digit e :
  In e getNotesInfo ->
  exists d, digit_value (substr (-1) 1 (NoteInfo.name e)) = Some d /\ 0 <= d <= 8.
Proof.
  assert (H : forallb last_is_octave_digit getNotesInfo = true)
    by (vm_compute; reflexivity).
  rewrite forallb_forall in H. intros Hin. specialize (H e Hin).
  unfold last_is_octave_digit in H.
  destruct (digit_value _) as [d|]; [|discriminate H].
  exists d. split; [reflexivity|lia].
Qed.

Lemma find_key_missing noteKeyNb :
  noteKeyNb < 1 \/ 88 < noteKeyNb ->
  lodash.find (fun e => NoteInfo.keynb e =? noteKeyNb) getNotesInfo = None.
Proof.
  intros Hout. apply find_absent. intros e Hin.
  apply table_key_numbers in Hin. lia.
Qed.

Lemma find_key_1 :
  exists n, lodash.find (fun e => NoteInfo.keynb e =? 1) getNotesInfo = Some n /\
            NoteInfo.name n = "A0".
Proof. vm_compute. eexists. split; reflexivity. Qed.

Lemma find_key_88 :
  exists n, lodash.find (fun e => NoteInfo.keynb e =? 88) getNotesInfo = Some n /\
            NoteInfo.name n = "C7".
Proof. vm_compute. eexists. split; reflexivity. Qed.

Lemma find_name_A4 :
  exists n, lodash.find (fun e => (NoteInfo.name e =? "A4")%string) getNotesInfo = Some n /\
            NoteInfo.keynb n = 49 /\
            NoteInfo.freq n = 0x1.b80000000000ep+8%float.
Proof. vm_compute. eexists. repeat split. Qed.

Lemma find_name_Z9 :
  lodash.find (fun e => (NoteInfo.name e =? "Z9")%string) getNotesInfo = None.
Proof. vm_compute. reflexivity. Qed.

(** ** Two concrete worlds *)

(** ** The builders and the mutators *)

(** C1: building from key number 1 yields the name "A0", but building from
    key number 88 yields the name "C7" and not "C8": the octave digit is
    attached to each run of twelve keys starting at A, so every key from C
    to G# is named one octave too low. *)
Theorem buildFromKeyNb_table_ends (handle : js AudioContext) (w : World) :
  (exists o w', buildFromKeyNb 1 handle w = (Ok (val o), w') /\ name o = val "A0") /\
  (exists o w', buildFromKeyNb 88 handle w = (Ok (val o), w') /\ name o = val "C7").
Proof.
  split.
  - destruct find_key_1 as (n & Hfind & Hname).
    destruct (new_notePlayer_identity (NoteInfo.set_audioContext handle n) w)
      as (o & w' & Hnew & _ & _ & _ & Ho).
    exists o, w'. split; [exact (buildFromKeyNb_found _ _ _ _ _ _ Hfind Hnew)|].
    rewrite Ho. simpl. rewrite Hname. reflexivity.
  - destruct find_key_88 as (n & Hfind & Hname).
    destruct (new_notePlayer_identity (NoteInfo.set_audioContext handle n) w)
      as (o & w' & Hnew & _ & _ & _ & Ho).
    exists o, w'. split; [exact (buildFromKeyNb_found _ _ _ _ _ _ Hfind Hnew)|].
    rewrite Ho. simpl. rewrite Hname. reflexivity.
Qed.

(** C3: [buildFromName("A4")] returns a note whose key number is 49 and
    whose frequency is within a relative error of 1e-6 of 440 Hz, whatever
    the handle and the world. *)
Theorem buildFromName_A4 (handle : js AudioContext) (w : World) :
  exists o w' f,
    buildFromName "A4" handle w = (Ok (val o), w') /\
    pianoKeyNb o = val 49 /\
    frequency o = val f /\
    within f 440 (1 # 1000000).
Proof.
  destruct find_name_A4 as (n & Hfind & Hkey & Hfreq).
  destruct (new_notePlayer_identity (NoteInfo.set_audioContext handle n) w)
    as (o & w' & Hnew & Ho & Hf & _).
  exists o, w', (NoteInfo.freq n). split; [|split; [|split]].
  - exact (buildFromName_found _ _ _ _ _ _ Hfind Hnew).
  - rewrite Ho. simpl. rewrite Hkey. reflexivity.
  - exact Hf.
  - rewrite Hfreq. unfold within. eexists. split.
    + vm_compute. reflexivity.
    + vm_compute. discriminate.
Qed.

(** C4: for every index below 88, building from the frequency of the table
    element at that index returns a note with that element's key number. *)
Theorem buildFromFrequency_round_trip (i : nat) :
  (i < 88)%nat ->
  exists e,
    nth_error getNotesInfo i = Some e /\
    forall handle w,
    exists o w',
      buildFromFrequency (NoteInfo.freq e) handle w = (Ok (val o), w') /\
      pianoKeyNb o = val (NoteInfo.keynb e).
Proof.
  intros Hi.
  destruct (nth_error getNotesInfo i) as [e|] eqn:Hnth.
  - exists e. split; [reflexivity|]. intros handle w.
    apply buildFromFrequency_of_element. exact (nth_error_In _ _ Hnth).
  - apply nth_error_None in Hnth.
    rewrite getNotesInfo_length in Hnth. lia.
Qed.

Lemma buildFromFrequency_round_trip_witness :
  (48 < 88)%nat /\
  exists e,
    nth_error getNotesInfo 48 = Some e /\
    forall handle w,
    exists o w',
      buildFromFrequency (NoteInfo.freq e) handle w = (Ok (val o), w') /\
      pianoKeyNb o = val (NoteInfo.keynb e).
Proof. split; [lia | apply (buildFromFrequency_round_trip 48); lia]. Defined.

(** C5: a construction that fails is logged by the constructor's [catch],
    whose [return null] is discarded by [new]; the builder then returns the
    half-initialised object.  This happens when the handle is omitted and
    the host has no [window], and when the handle is [null]: the note comes
    back without [destinationNode] (and in the first case without
    [audioContext]), and the only trace of the failure is a console line. *)
Theorem failed_construction_returns_partial_note
    (lines : list console_line) (made : nat) (source : nat -> float) (used : nat) :
  (let w := mkWorld lines NoWindow made source used in
   exists o w',
     buildFromName "A4" undefined w = (Ok (val o), w') /\
     audioContext o = undefined /\
     destinationNode o = undefined /\
     console w' = (lines ++ [error_raw (ReferenceError "window is not defined")])%list) /\
  (let w := mkWorld lines WebAudio made source used in
   exists o w',
     buildFromName "A4" null w = (Ok (val o), w') /\
     audioContext o = null /\
     destinationNode o = undefined /\
     console w' = (lines ++ [error_raw (TypeError "Cannot read property 'destination'")])%list) /\
  (exists o w',
     buildFromName "A4" undefined node_js = (Ok (val o), w') /\
     frequency o = val 0x1.b80000000000ep+8%float /\
     audioContext o = undefined /\
     destinationNode o = undefined /\
     console w' = [error_raw (ReferenceError "window is not defined")]).
Proof.
  destruct find_name_A4 as (n & Hfind & _).
  split; [|split].
  - intros w. pose proof (new_notePlayer_cases (NoteInfo.set_audioContext undefined n) w) as Hnew.
    simpl in Hnew. do 2 eexists.
    split; [exact (buildFromName_found _ _ _ _ _ _ Hfind Hnew)|]. repeat split.
  - intros w. pose proof (new_notePlayer_cases (NoteInfo.set_audioContext null n) w) as Hnew.
    simpl in Hnew. do 2 eexists.
    split; [exact (buildFromName_found _ _ _ _ _ _ Hfind Hnew)|]. repeat split.
  - vm_compute. do 2 eexists. repeat split.
Qed.

Lemma buildFromKeyNb_outside_1_88 noteKeyNb handle w :
  noteKeyNb < 1 \/ 88 < noteKeyNb ->
  buildFromKeyNb noteKeyNb handle w =
  (Throw (TypeError "Cannot set property 'audioContext' of undefined"), w).
Proof.
  intros Hout. apply buildFromKeyNb_missing, find_key_missing. exact Hout.
Qed.

(** C6: for a key number without an element, [buildFromKeyNb] lets a
    [TypeError] escape (the assignment to a property of [undefined]),
    whereas the two other builders catch their error, log it and return
    [null]. *)
Theorem buildFromKeyNb_unknown_key_throws (handle : js AudioContext) (w : World) :
  buildFromKeyNb 0 handle w =
    (Throw (TypeError "Cannot set property 'audioContext' of undefined"), w) /\
  buildFromKeyNb 89 handle w =
    (Throw (TypeError "Cannot set property 'audioContext' of undefined"), w) /\
  buildFromName "Z9" handle w =
    (Ok null, write_console (error_NOTEPLAYER (InvalidNoteName "Z9")) w) /\
  buildFromFrequency 20 handle w =
    (Ok null, write_console (error_NOTEPLAYER (InvalidFrequency 20)) w).
Proof.
  split; [|split; [|split]].
  - apply buildFromKeyNb_outside_1_88. lia.
  - apply buildFromKeyNb_outside_1_88. lia.
  - exact (buildFromName_missing _ _ _ find_name_Z9).
  - destruct table_ends as (lowest & highest & Hlo & _ & Hhi & Elo & Ehi).
    apply (buildFromFrequency_out _ _ _ _ _ Hlo Hhi).
    unfold out_of_range. rewrite Elo. reflexivity.
Qed.

(** C7: with [lowest] and [highest] the elements at indices 0 and 87,
    [buildFromFrequency] refuses a frequency (logs the out-of-range error
    and returns [null]) when it is strictly below [lowest]'s frequency or
    strictly above [highest]'s, and returns a note otherwise; the two bounds
    are accepted, 20 and 5000 are refused. *)
Theorem buildFromFrequency_out_of_range :
  exists lowest highest,
    nth_error getNotesInfo 0 = Some lowest /\
    nth_error getNotesInfo 87 = Some highest /\
    (forall noteFreq handle w,
        if (noteFreq <? NoteInfo.freq lowest)%float || (NoteInfo.freq highest <? noteFreq)%float
        then buildFromFrequency noteFreq handle w =
             (Ok null, write_console (error_NOTEPLAYER (InvalidFrequency noteFreq)) w)
        else exists o w', buildFromFrequency noteFreq handle w = (Ok (val o), w')) /\
    (forall handle w,
        exists o w', buildFromFrequency (NoteInfo.freq lowest) handle w = (Ok (val o), w')) /\
    (forall handle w,
        exists o w', buildFromFrequency (NoteInfo.freq highest) handle w = (Ok (val o), w')) /\
    (forall handle w,
        buildFromFrequency 20 handle w =
        (Ok null, write_console (error_NOTEPLAYER (InvalidFrequency 20)) w)) /\
    (forall handle w,
        buildFromFrequency 5000 handle w =
        (Ok null, write_console (error_NOTEPLAYER (InvalidFrequency 5000)) w)).
Proof.
  destruct table_ends as (lowest & highest & Hlo & Hhi87 & Hhi & Elo & Ehi).
  exists lowest, highest. split; [exact Hlo|]. split; [exact Hhi87|].
  split; [|split; [|split; [|split]]].
  - intros noteFreq handle w.
    destruct ((noteFreq <? NoteInfo.freq lowest)%float || (NoteInfo.freq highest <? noteFreq)%float)
      eqn:Hout.
    + exact (buildFromFrequency_out _ _ _ _ _ Hlo Hhi Hout).
    + exact (buildFromFrequency_in_range_returns _ _ _ _ _ Hlo Hhi Hout).
  - intros handle w.
    apply (buildFromFrequency_in_range_returns _ _ _ _ _ Hlo Hhi).
    unfold out_of_range. rewrite Elo, Ehi. reflexivity.
  - intros handle w.
    apply (buildFromFrequency_in_range_returns _ _ _ _ _ Hlo Hhi).
    unfold out_of_range. rewrite Elo, Ehi. reflexivity.
  - intros handle w. apply (buildFromFrequency_out _ _ _ _ _ Hlo Hhi).
    unfold out_of_range. rewrite Elo. reflexivity.
  - intros handle w. apply (buildFromFrequency_out _ _ _ _ _ Hlo Hhi).
    unfold out_of_range. rewrite Elo, Ehi. reflexivity.
Qed.

(** C8, counterexample: the note built from key number 1 is "A0" and its
    octave is "0", which is not a number from 1 to 8. *)
Lemma octave_of_A0_not_in_1_8 :
  exists o w',
    buildFromKeyNb 1 undefined browser = (Ok (val o), w') /\
    name o = val "A0" /\
    octave o = val "0" /\
    ~ (exists d, octave_number o = Some d /\ 1 <= d <= 8).
Proof.
  vm_compute. do 2 eexists. repeat split.
  intros (d & Hd & Hlow & _). injection Hd as <-. apply Hlow. reflexivity.
Qed.

(** C8, amended: for every note returned by one of the three builders, the
    numeric value of the octave field is the numeric value of the last
    character of the note's name, and it lies between 0 and 8. *)
Theorem resolved_octave_is_last_character (o : notePlayer) :
  resolved o ->
  exists nm d,
    name o = val nm /\
    octave_number o = Some d /\
    digit_value (substr (-1) 1 nm) = Some d /\
    0 <= d <= 8.
Proof.
  intros Hres.
  destruct (resolved_from_table o Hres) as (n & handle & w & w' & Hin & Hnew).
  destruct (new_notePlayer_identity (NoteInfo.set_audioContext handle n) w)
    as (o1 & w1 & Hnew1 & _ & _ & Hoct & Hname).
  rewrite Hnew in Hnew1. injection Hnew1 as <- <-.
  destruct (table_names_end_in_digit n Hin) as (d & Hd & Hrange).
  exists (NoteInfo.name n), d. simpl in Hoct, Hname.
  unfold octave_number. rewrite Hoct.
  split; [exact Hname|]. split; [exact Hd|]. split; [exact Hd|exact Hrange].
Qed.

Lemma A4_in_browser_resolved : resolved A4_in_browser.
Proof.
  apply (resolved_by_key _ 49 undefined browser
           (after_context (after_draw browser))).
  vm_compute. reflexivity.
Defined.

Lemma resolved_octave_is_last_character_witness :
  resolved A4_in_browser /\
  exists nm d,
    name A4_in_browser = val nm /\
    octave_number A4_in_browser = Some d /\
    digit_value (substr (-1) 1 nm) = Some d /\
    0 <= d <= 8.
Proof.
  split.
  - exact A4_in_browser_resolved.
  - apply (resolved_octave_is_last_character A4_in_browser).
    exact A4_in_browser_resolved.
Defined.

(** C9, counterexample: in a browser, building without a handle
    instantiates an [AudioContext]. *)
Lemma omitted_handle_creates_context :
  contexts browser = 0%nat /\
  contexts (snd (buildFromName "A4" undefined browser)) = 1%nat /\
  contexts (snd (buildFromFrequency 440 undefined browser)) = 1%nat /\
  contexts (snd (buildFromKeyNb 49 undefined browser)) = 1%nat.
Proof. vm_compute. repeat split. Qed.

Lemma constructed_accounting handle n w line o w' :
  new (notePlayer_body (NoteInfo.set_audioContext handle n)) (write_console line w)
  = (Ok o, w') ->
  context_accounting handle w (Ok (val o), w').
Proof.
  intros Hnew.
  pose proof (new_notePlayer_world (NoteInfo.set_audioContext handle n)
                (write_console line w)) as [Hc _].
  pose proof (new_notePlayer_stores_handle _ _ _ _ Hnew) as Hh.
  rewrite Hnew in Hc. simpl in Hc, Hh.
  unfold context_accounting. simpl. split; [exact Hc|].
  rewrite Hh. destruct handle; [destruct (host w)| |]; reflexivity.
Qed.

Lemma constructed_accounting_same_world handle n w o w' :
  new (notePlayer_body (NoteInfo.set_audioContext handle n)) w = (Ok o, w') ->
  context_accounting handle w (Ok (val o), w').
Proof.
  intros Hnew.
  pose proof (new_notePlayer_world (NoteInfo.set_audioContext handle n) w) as [Hc _].
  pose proof (new_notePlayer_stores_handle _ _ _ _ Hnew) as Hh.
  rewrite Hnew in Hc. simpl in Hc, Hh.
  unfold context_accounting. simpl. split; [exact Hc|].
  rewrite Hh. destruct handle; [destruct (host w)| |]; reflexivity.
Qed.

Lemma buildFromName_accounting noteName handle w line :
  context_accounting handle w (buildFromName noteName handle (write_console line w)).
Proof.
  destruct (lodash.find (fun e => (NoteInfo.name e =? noteName)%string) getNotesInfo)
    as [n|] eqn:Hfind.
  - destruct (new_notePlayer_identity (NoteInfo.set_audioContext handle n)
                (write_console line w)) as (o & w' & Hnew & _).
    rewrite (buildFromName_found _ _ _ _ _ _ Hfind Hnew).
    exact (constructed_accounting _ _ _ _ _ _ Hnew).
  - rewrite (buildFromName_missing _ _ _ Hfind). reflexivity.
Qed.

(** C9, amended: when the handle is omitted and an element is found, the
    builder itself creates the default audio context (on a host that has
    one to offer) and stores it on the note; when a handle is supplied the
    note holds that handle and no context is created; and a call that
    returns no note creates none. *)
Theorem resolver_context_creation (handle : js AudioContext) (w : World) :
  (forall noteName, context_accounting handle w (buildFromName noteName handle w)) /\
  (forall noteFreq, context_accounting handle w (buildFromFrequency noteFreq handle w)) /\
  (forall noteKeyNb, context_accounting handle w (buildFromKeyNb noteKeyNb handle w)).
Proof.
  split; [|split].
  - intros noteName.
    destruct (lodash.find (fun e => (NoteInfo.name e =? noteName)%string) getNotesInfo)
      as [n|] eqn:Hfind.
    + destruct (new_notePlayer_identity (NoteInfo.set_audioContext handle n) w)
        as (o & w' & Hnew & _).
      rewrite (buildFromName_found _ _ _ _ _ _ Hfind Hnew).
      exact (constructed_accounting_same_world _ _ _ _ _ Hnew).
    + rewrite (buildFromName_missing _ _ _ Hfind). reflexivity.
  - intros noteFreq.
    destruct (buildFromFrequency_cases noteFreq handle w) as [H|(c & _ & H)];
      rewrite H.
    + reflexivity.
    + apply buildFromName_accounting.
  - intros noteKeyNb.
    destruct (lodash.find (fun e => NoteInfo.keynb e =? noteKeyNb) getNotesInfo)
      as [n|] eqn:Hfind.
    + destruct (new_notePlayer_identity (NoteInfo.set_audioContext handle n) w)
        as (o & w' & Hnew & _).
      rewrite (buildFromKeyNb_found _ _ _ _ _ _ Hfind Hnew).
      exact (constructed_accounting_same_world _ _ _ _ _ Hnew).
    + rewrite (buildFromKeyNb_missing _ _ _ Hfind). reflexivity.
Qed.

(** C10: [setDuration(undefined)] leaves the note as it is and
    [setDuration(1.5)] sets the duration to 1.5; [setVolume] behaves the
    same way on the volume and stores whatever it is given; each of the two
    leaves the seven other fields alone. *)
Theorem setDuration_setVolume_contract (self : notePlayer) :
  setDuration undefined self = self /\
  duration (setDuration (val 1.5%float) self) = val 1.5%float /\
  (forall d,
      duration (setDuration d self) =
        match d with undefined => duration self | _ => d end /\
      pianoKeyNb (setDuration d self) = pianoKeyNb self /\
      frequency (setDuration d self) = frequency self /\
      octave (setDuration d self) = octave self /\
      name (setDuration d self) = name self /\
      volume (setDuration d self) = volume self /\
      audioContext (setDuration d self) = audioContext self /\
      destinationNode (setDuration d self) = destinationNode self) /\
  setVolume undefined self = self /\
  (forall v,
      volume (setVolume v self) =
        match v with undefined => volume self | _ => v end /\
      pianoKeyNb (setVolume v self) = pianoKeyNb self /\
      frequency (setVolume v self) = frequency self /\
      octave (setVolume v self) = octave self /\
      name (setVolume v self) = name self /\
      duration (setVolume v self) = duration self /\
      audioContext (setVolume v self) = audioContext self /\
      destinationNode (setVolume v self) = destinationNode self).
Proof.
  destruct self as [k f o n d v ac dn].
  repeat split.
Qed.

(** * Further properties *)

(** ** The order on doubles *)

Lemma SFltb_irrefl x : SFltb x x = false.
Proof.
  unfold SFltb, SFcompare. destruct x as [s|s| |s m e]; try destruct s; simpl;
    try reflexivity.
  all: rewrite Z.compare_refl, Pos.compare_cont_spec; simpl;
    rewrite Pos.compare_refl; reflexivity.
Qed.

Lemma SFleb_false_ltb x a : SFleb x a = false -> SFltb x a = false.
Proof. unfold SFltb, SFleb. destruct (SFcompare x a) as [[| |]|]; congruence. Qed.

(** If [c] is below [a] and [x] is not, then [x] is not below or equal to
    [c]; [x] may be a NaN. *)
Lemma SFltb_not_above c a x :
  SFltb c a = true -> SFltb x a = false -> SFleb x c = false.
Proof.
  unfold SFltb, SFleb, SFcompare.
  destruct c as [sc|sc| |sc mc ec], a as [sa|sa| |sa ma ea], x as [sx|sx| |sx mx ex];
    try destruct sc; try destruct sa; try destruct sx; simpl; try congruence.
  all: rewrite ?Pos.compare_cont_spec; simpl.
  all: repeat match goal with
       | |- context [Z.compare ?a ?b] => destruct (Z.compare_spec a b)
       | |- context [Pos.compare ?a ?b] => destruct (Pos.compare_spec a b)
       end; simpl; try congruence; try lia.
Qed.

Lemma ltb_irrefl (x : float) : (x <? x)%float = false.
Proof. rewrite ltb_spec. apply SFltb_irrefl. Qed.

Lemma leb_false_ltb (x a : float) : (x <=? a)%float = false -> (x <? a)%float = false.
Proof. rewrite ltb_spec, leb_spec. apply SFleb_false_ltb. Qed.

Lemma ltb_not_above (c a x : float) :
  (c <? a)%float = true -> (x <? a)%float = false -> (x <=? c)%float = false.
Proof. rewrite !ltb_spec, leb_spec. apply SFltb_not_above. Qed.

(** ** Lists without repetition *)

Lemma distinct_strings_NoDup (l : list string) :
  distinct_strings l = true -> NoDup l.
Proof.
  induction l as [|x rest IH]; simpl; intros H; constructor.
  - apply andb_prop in H as [H _]. apply negb_true_iff in H.
    intros Hin. assert (E : existsb (String.eqb x) rest = true).
    { apply existsb_exists. exists x. split; [exact Hin|apply String.eqb_refl]. }
    congruence.
  - apply IH. apply andb_prop in H as [_ H]. exact H.
Qed.

Lemma NoDup_map_injective {A B : Type} (f : A -> B) (l : list A) :
  NoDup (List.map f l) ->
  forall x y, In x l -> In y l -> f x = f y -> x = y.
Proof.
  induction l as [|a rest IH]; simpl; intros Hnd x y Hx Hy E; [contradiction|].
  inversion Hnd as [|? ? Hnotin Hrest]; subst.
  destruct Hx as [<-|Hx], Hy as [<-|Hy].
  - reflexivity.
  - exfalso. apply Hnotin. rewrite E. now apply in_map.
  - exfalso. apply Hnotin. rewrite <- E. now apply in_map.
  - now apply IH.
Qed.

Lemma NoDup_map_of_injective {A B : Type} (f : A -> B) (l : list A) :
  (forall x y, f x = f y -> x = y) -> NoDup l -> NoDup (List.map f l).
Proof.
  intros Hinj. induction 1 as [|a rest Hnotin _ IH]; simpl; constructor.
  - intros Hin. apply in_map_iff in Hin as (y & E & Hy).
    apply Hinj in E. subst y. contradiction.
  - exact IH.
Qed.

(** ** The structure of the table *)

Lemma table_key_list :
  List.map NoteInfo.keynb getNotesInfo = List.map Z.of_nat (seq 1 88).
Proof. vm_compute. reflexivity. Qed.

Lemma table_keys_NoDup : NoDup (List.map NoteInfo.keynb getNotesInfo).
Proof.
  rewrite table_key_list. apply NoDup_map_of_injective.
  - intros a b. apply Nat2Z.inj.
  - apply seq_NoDup.
Qed.

Lemma table_names_NoDup : NoDup (List.map NoteInfo.name getNotesInfo).
Proof. apply distinct_strings_NoDup. vm_compute. reflexivity. Qed.

Lemma table_name_list :
  List.map NoteInfo.name getNotesInfo = List.map key_name (seq 0 88).
Proof. vm_compute. reflexivity. Qed.

(** X3: the table element at index [i] is named by the pitch class at
    [i mod 12] followed by [i / 12], and no name occurs twice. *)
Theorem getNotesInfo_names :
  List.map NoteInfo.name getNotesInfo = List.map key_name (seq 0 88) /\
  NoDup (List.map NoteInfo.name getNotesInfo).
Proof.
  split; [exact table_name_list | exact table_names_NoDup].
Qed.

(** ** Looking an element up again *)

Lemma find_name_self c :
  In c getNotesInfo ->
  lodash.find (fun e => (NoteInfo.name e =? NoteInfo.name c)%string) getNotesInfo = Some c.
Proof.
  intros Hin.
  destruct (find_member (fun e => (NoteInfo.name e =? NoteInfo.name c)%string)
              getNotesInfo c Hin (String.eqb_refl _)) as (n & Hfind).
  destruct (find_In _ _ _ Hfind) as (Hn & E). apply String.eqb_eq in E.
  pose proof (NoDup_map_injective NoteInfo.name getNotesInfo table_names_NoDup
                n c Hn Hin E) as Heq.
  subst n. exact Hfind.
Qed.

Lemma find_key_self c :
  In c getNotesInfo ->
  lodash.find (fun e => NoteInfo.keynb e =? NoteInfo.keynb c) getNotesInfo = Some c.
Proof.
  intros Hin.
  destruct (find_member (fun e => NoteInfo.keynb e =? NoteInfo.keynb c)
              getNotesInfo c Hin (Z.eqb_refl _)) as (n & Hfind).
  destruct (find_In _ _ _ Hfind) as (Hn & E). apply Z.eqb_eq in E.
  pose proof (NoDup_map_injective NoteInfo.keynb getNotesInfo table_keys_NoDup
                n c Hn Hin E) as Heq.
  subst n. exact Hfind.
Qed.

Lemma reduce_member noteFreq c :
  lodash.reduce (closer noteFreq) getNotesInfo = Some c -> In c getNotesInfo.
Proof.
  intros Hred.
  destruct (reduce_selects (closer noteFreq) getNotesInfo
              (closer_selects noteFreq) getNotesInfo_not_empty) as (c' & Hred' & Hin).
  rewrite Hred in Hred'. injection Hred' as <-. exact Hin.
Qed.

(** The closest element to the frequency of a table element is that
    element. *)
Lemma closest_self e :
  In e getNotesInfo ->
  exists lowest highest,
    nth_error getNotesInfo 0 = Some lowest /\
    nth_error getNotesInfo (List.length getNotesInfo - 1) = Some highest /\
    out_of_range (NoteInfo.freq e) lowest highest = false /\
    lodash.reduce (closer (NoteInfo.freq e)) getNotesInfo = Some e.
Proof.
  intros Hin.
  destruct table_ends as (lowest & highest & Hlo & Hhi87 & Hhi & _).
  exists lowest, highest. split; [exact Hlo|]. split; [exact Hhi|].
  pose proof (table_leads_back lowest highest Hlo Hhi87) as Hall.
  rewrite forallb_forall in Hall. specialize (Hall e Hin).
  unfold leads_back in Hall. apply andb_prop in Hall as [Hrange Hback].
  apply negb_true_iff in Hrange. split; [exact Hrange|].
  destruct (lodash.reduce (closer (NoteInfo.freq e)) getNotesInfo) as [c|] eqn:Hred;
    [|discriminate Hback].
  pose proof (reduce_member _ _ Hred) as Hc.
  rewrite (find_name_self c Hc) in Hback. apply Z.eqb_eq in Hback.
  rewrite (NoDup_map_injective NoteInfo.keynb getNotesInfo table_keys_NoDup
             c e Hc Hin Hback).
  reflexivity.
Qed.

(** What [new notePlayer(n)] leaves in the object and in the world. *)
Lemma new_notePlayer_facts handle n w o w' :
  new (notePlayer_body (NoteInfo.set_audioContext handle n)) w = (Ok o, w') ->
  carries n o /\
  volume o = val 1%float /\
  duration o = val (random w (draws w)) /\
  draws w' = S (draws w) /\
  random w' = random w /\
  wired_or_bare o.
Proof.
  rewrite new_notePlayer_cases. unfold carries, wired_or_bare.
  destruct handle; simpl; [destruct (host w)| |];
    intros [= <- <-]; simpl; repeat split.
Qed.

(** X1: a note returned by any of the three builders carries the key
    number, the frequency and the name of one table element, so its key
    number lies between 1 and 88; its volume is 1 and it has a duration. *)
Theorem builders_return_table_notes (o : notePlayer) :
  resolved o ->
  exists e d,
    In e getNotesInfo /\
    carries e o /\
    1 <= NoteInfo.keynb e <= 88 /\
    volume o = val 1%float /\
    duration o = val d.
Proof.
  intros Hres.
  destruct (resolved_from_table o Hres) as (n & handle & w & w' & Hin & Hnew).
  destruct (new_notePlayer_facts _ _ _ _ _ Hnew) as (Hc & Hv & Hd & _).
  exists n, (random w (draws w)).
  split; [exact Hin|]. split; [exact Hc|].
  split; [exact (table_key_numbers n Hin)|]. split; [exact Hv|exact Hd].
Qed.

Lemma builders_return_table_notes_witness :
  resolved A4_in_browser /\
  exists e d,
    In e getNotesInfo /\
    carries e A4_in_browser /\
    1 <= NoteInfo.keynb e <= 88 /\
    volume A4_in_browser = val 1%float /\
    duration A4_in_browser = val d.
Proof.
  split.
  - exact A4_in_browser_resolved.
  - apply (builders_return_table_notes A4_in_browser). exact A4_in_browser_resolved.
Defined.

(** X2: [buildFromKeyNb] returns a note exactly for the key numbers 1 to 88,
    and the note has the key number asked for; for every other integer a
    [TypeError] escapes, and on the way nothing was written to the console,
    no audio context was created and no random value was drawn. *)
Theorem buildFromKeyNb_domain (noteKeyNb : Z) (handle : js AudioContext) (w : World) :
  if (1 <=? noteKeyNb) && (noteKeyNb <=? 88)
  then exists o w',
      buildFromKeyNb noteKeyNb handle w = (Ok (val o), w') /\
      pianoKeyNb o = val noteKeyNb
  else fst (buildFromKeyNb noteKeyNb handle w) =
         Throw (TypeError "Cannot set property 'audioContext' of undefined") /\
       console (snd (buildFromKeyNb noteKeyNb handle w)) = console w /\
       contexts (snd (buildFromKeyNb noteKeyNb handle w)) = contexts w /\
       draws (snd (buildFromKeyNb noteKeyNb handle w)) = draws w.
Proof.
  destruct ((1 <=? noteKeyNb) && (noteKeyNb <=? 88)) eqn:Hrange.
  - assert (Hk : In noteKeyNb (List.map NoteInfo.keynb getNotesInfo)).
    { rewrite table_key_list. apply in_map_iff.
      exists (Z.to_nat noteKeyNb). split; [lia|]. apply in_seq. lia. }
    destruct (proj1 (in_map_iff NoteInfo.keynb getNotesInfo noteKeyNb) Hk)
      as (e & Ek & Hin).
    clear Hk. subst noteKeyNb.
    destruct (new_notePlayer_identity (NoteInfo.set_audioContext handle e) w)
      as (o & w' & Hnew & Hkey & _).
    exists o, w'. split; [|exact Hkey].
    exact (buildFromKeyNb_found _ _ _ _ _ _ (find_key_self e Hin) Hnew).
  - rewrite (buildFromKeyNb_outside_1_88 noteKeyNb handle w) by lia.
    repeat split.
Qed.

Lemma buildFromName_of_element e handle w :
  In e getNotesInfo ->
  exists o w',
    buildFromName (NoteInfo.name e) handle w = (Ok (val o), w') /\ carries e o.
Proof.
  intros Hin.
  destruct (new_notePlayer_identity (NoteInfo.set_audioContext handle e) w)
    as (o & w' & Hnew & _).
  exists o, w'. split.
  - exact (buildFromName_found _ _ _ _ _ _ (find_name_self e Hin) Hnew).
  - exact (proj1 (new_notePlayer_facts _ _ _ _ _ Hnew)).
Qed.

Lemma buildFromKeyNb_of_element e handle w :
  In e getNotesInfo ->
  exists o w',
    buildFromKeyNb (NoteInfo.keynb e) handle w = (Ok (val o), w') /\ carries e o.
Proof.
  intros Hin.
  destruct (new_notePlayer_identity (NoteInfo.set_audioContext handle e) w)
    as (o & w' & Hnew & _).
  exists o, w'. split.
  - exact (buildFromKeyNb_found _ _ _ _ _ _ (find_key_self e Hin) Hnew).
  - exact (proj1 (new_notePlayer_facts _ _ _ _ _ Hnew)).
Qed.

Lemma buildFromFrequency_carries e handle w :
  In e getNotesInfo ->
  exists o w',
    buildFromFrequency (NoteInfo.freq e) handle w = (Ok (val o), w') /\ carries e o.
Proof.
  intros Hin.
  destruct (closest_self e Hin) as (lowest & highest & Hlo & Hhi & Hrange & Hred).
  rewrite (buildFromFrequency_in _ handle w _ _ e Hlo Hhi Hrange Hred).
  apply buildFromName_of_element. exact Hin.
Qed.

(** X4: the three builders agree on every table element: building from its
    name, from its key number and from its frequency each return a note with
    that element's key number, frequency, name and octave. *)
Theorem builders_agree (i : nat) :
  (i < 88)%nat ->
  exists e,
    nth_error getNotesInfo i = Some e /\
    forall handle w,
      (exists o w',
          buildFromName (NoteInfo.name e) handle w = (Ok (val o), w') /\ carries e o) /\
      (exists o w',
          buildFromKeyNb (NoteInfo.keynb e) handle w = (Ok (val o), w') /\ carries e o) /\
      (exists o w',
          buildFromFrequency (NoteInfo.freq e) handle w = (Ok (val o), w') /\ carries e o).
Proof.
  intros Hi.
  destruct (nth_error getNotesInfo i) as [e|] eqn:Hnth.
  - exists e. split; [reflexivity|]. intros handle w.
    pose proof (nth_error_In _ _ Hnth) as Hin.
    split; [|split].
    + exact (buildFromName_of_element e handle w Hin).
    + exact (buildFromKeyNb_of_element e handle w Hin).
    + exact (buildFromFrequency_carries e handle w Hin).
  - apply nth_error_None in Hnth. rewrite getNotesInfo_length in Hnth. lia.
Qed.

Lemma builders_agree_witness :
  (48 < 88)%nat /\
  exists e,
    nth_error getNotesInfo 48 = Some e /\
    forall handle w,
      (exists o w',
          buildFromName (NoteInfo.name e) handle w = (Ok (val o), w') /\ carries e o) /\
      (exists o w',
          buildFromKeyNb (NoteInfo.keynb e) handle w = (Ok (val o), w') /\ carries e o) /\
      (exists o w',
          buildFromFrequency (NoteInfo.freq e) handle w = (Ok (val o), w') /\ carries e o).
Proof. split; [lia | apply (builders_agree 48); lia]. Defined.

(** X5: [buildFromName] returns a note exactly for the 88 names
    [key_name 0], ..., [key_name 87], and the note bears the name asked for;
    for every other string it logs the invalid-name error and returns
    [null]. *)
Theorem buildFromName_domain (noteName : string) (handle : js AudioContext) (w : World) :
  ((exists i, (i < 88)%nat /\ noteName = key_name i) /\
   exists o w',
     buildFromName noteName handle w = (Ok (val o), w') /\ name o = val noteName) \/
  ((forall i, (i < 88)%nat -> noteName <> key_name i) /\
   buildFromName noteName handle w =
   (Ok null, write_console (error_NOTEPLAYER (InvalidNoteName noteName)) w)).
Proof.
  destruct (lodash.find (fun e => (NoteInfo.name e =? noteName)%string) getNotesInfo)
    as [n|] eqn:Hfind.
  - left. destruct (find_In _ _ _ Hfind) as (Hin & E). apply String.eqb_eq in E.
    split.
    + pose proof (in_map NoteInfo.name getNotesInfo n Hin) as Hname.
      rewrite table_name_list in Hname.
      destruct (proj1 (in_map_iff key_name (seq 0 88) (NoteInfo.name n)) Hname)
        as (i & Ei & Hi).
      exists i. apply in_seq in Hi. split; [lia|]. rewrite <- E. symmetry. exact Ei.
    + destruct (new_notePlayer_identity (NoteInfo.set_audioContext handle n) w)
        as (o & w' & Hnew & _ & _ & _ & Ho).
      exists o, w'. split; [exact (buildFromName_found _ _ _ _ _ _ Hfind Hnew)|].
      rewrite Ho. simpl. rewrite E. reflexivity.
  - right. split; [|exact (buildFromName_missing _ _ _ Hfind)].
    intros i Hi E.
    assert (Hname : In noteName (List.map key_name (seq 0 88))).
    { rewrite E. apply in_map. apply in_seq. lia. }
    rewrite <- table_name_list in Hname.
    destruct (proj1 (in_map_iff NoteInfo.name getNotesInfo noteName) Hname)
      as (e & Ee & Hin).
    destruct (find_member (fun e => (NoteInfo.name e =? noteName)%string)
                getNotesInfo e Hin (proj2 (String.eqb_eq _ _) Ee)) as (y & Hy).
    rewrite Hy in Hfind. discriminate Hfind.
Qed.

(** ** The closest element *)

Lemma closer_distance noteFreq prev curr :
  closer noteFreq prev curr =
  if (distance noteFreq curr <? distance noteFreq prev)%float then curr else prev.
Proof. reflexivity. Qed.

(** Scanning with [closer]: the result sits somewhere in the scanned list,
    no element before it is as close or closer, and no element after it is
    strictly closer. *)
Lemma closer_scan noteFreq :
  forall rest acc pre mid,
    (forall x, In x pre ->
               (distance noteFreq x <=? distance noteFreq acc)%float = false) ->
    (forall x, In x mid ->
               (distance noteFreq x <? distance noteFreq acc)%float = false) ->
    exists pre' post',
      (pre ++ acc :: mid ++ rest = pre' ++ fold_left (closer noteFreq) rest acc :: post')%list /\
      (forall x, In x pre' ->
                 (distance noteFreq x
                  <=? distance noteFreq (fold_left (closer noteFreq) rest acc))%float = false) /\
      (forall x, In x post' ->
                 (distance noteFreq x
                  <? distance noteFreq (fold_left (closer noteFreq) rest acc))%float = false).
Proof.
  induction rest as [|curr rest IH]; intros acc pre mid Hpre Hmid; simpl.
  - exists pre, mid. rewrite app_nil_r. auto.
  - rewrite closer_distance.
    destruct (distance noteFreq curr <? distance noteFreq acc)%float eqn:Hlt.
    + destruct (IH curr (pre ++ acc :: mid)%list []) as (pre' & post' & E & H1 & H2).
      * intros x Hx. apply (ltb_not_above _ _ _ Hlt).
        apply in_app_or in Hx as [Hx|[<-|Hx]].
        -- apply leb_false_ltb. exact (Hpre x Hx).
        -- apply ltb_irrefl.
        -- exact (Hmid x Hx).
      * intros x [].
      * exists pre', post'. split; [|split; assumption].
        rewrite <- E. rewrite <- app_assoc. reflexivity.
    + destruct (IH acc pre (mid ++ [curr])%list) as (pre' & post' & E & H1 & H2).
      * exact Hpre.
      * intros x Hx. apply in_app_or in Hx as [Hx|[<-|[]]];
          [exact (Hmid x Hx) | exact Hlt].
      * exists pre', post'. split; [|split; assumption].
        rewrite <- E. rewrite <- app_assoc. reflexivity.
Qed.

Lemma reduce_closest (noteFreq : float) (l : list NoteInfo.t) (c : NoteInfo.t) :
  lodash.reduce (closer noteFreq) l = Some c ->
  exists pre post,
    l = (pre ++ c :: post)%list /\
    (forall x, In x pre ->
               (distance noteFreq x <=? distance noteFreq c)%float = false) /\
    (forall x, In x post ->
               (distance noteFreq x <? distance noteFreq c)%float = false).
Proof.
  destruct l as [|first rest]; simpl; [discriminate|].
  intros [= <-].
  destruct (closer_scan noteFreq rest first [] []) as (pre & post & E & H1 & H2).
  - intros x [].
  - intros x [].
  - exists pre, post. split; [exact E|split; assumption].
Qed.

(** In a list sorted by a relation, what stands after an element is related
    to it. *)
Lemma sorted_after {A : Type} (R : A -> A -> Prop) (pre post : list A) (c : A) :
  StronglySorted R (pre ++ c :: post) -> Forall (R c) post.
Proof.
  induction pre as [|a pre IH]; simpl; intros H; inversion H; subst; auto.
Qed.

Lemma table_sorted_by_key :
  StronglySorted (fun a b => key_ltb a b = true) getNotesInfo.
Proof. apply strongly_sortedb_sound. vm_compute. reflexivity. Qed.

(** X6: a note returned by [buildFromFrequency] is that of a table element
    [c] than which no table element is strictly closer to the frequency
    asked for, and every element with a smaller key number is strictly
    farther (or incomparable): on a tie the lowest key wins. *)
Theorem buildFromFrequency_closest noteFreq handle w o w' :
  buildFromFrequency noteFreq handle w = (Ok (val o), w') ->
  exists c,
    In c getNotesInfo /\
    carries c o /\
    (forall e, In e getNotesInfo ->
               (distance noteFreq e <? distance noteFreq c)%float = false) /\
    (forall e, In e getNotesInfo ->
               NoteInfo.keynb e < NoteInfo.keynb c ->
               (distance noteFreq e <=? distance noteFreq c)%float = false).
Proof.
  intros Hb.
  destruct table_ends as (lowest & highest & Hlo & _ & Hhi & _).
  destruct (out_of_range noteFreq lowest highest) eqn:Hout.
  { rewrite (buildFromFrequency_out _ _ _ _ _ Hlo Hhi Hout) in Hb. discriminate Hb. }
  destruct (reduce_selects (closer noteFreq) getNotesInfo
              (closer_selects noteFreq) getNotesInfo_not_empty) as (c & Hred & Hin).
  rewrite (buildFromFrequency_in _ handle w _ _ c Hlo Hhi Hout Hred) in Hb.
  destruct (buildFromName_of_element c handle
              (write_console (log_closest (NoteInfo.freq c) (NoteInfo.name c)) w) Hin)
    as (o1 & w1 & Hb1 & Hc).
  rewrite Hb1 in Hb. injection Hb as <- <-.
  exists c. split; [exact Hin|]. split; [exact Hc|].
  destruct (reduce_closest _ _ _ Hred) as (pre & post & E & Hpre & Hpost).
  pose proof table_sorted_by_key as Hsorted. rewrite E in Hsorted.
  pose proof (sorted_after _ _ _ _ Hsorted) as Hafter.
  rewrite Forall_forall in Hafter.
  assert (Hsplit : forall e, In e getNotesInfo -> In e pre \/ e = c \/ In e post).
  { intros e He. rewrite E in He. apply in_app_or in He.
    destruct He as [He|[He|He]];
      [left; exact He | right; left; symmetry; exact He | right; right; exact He]. }
  split.
  - intros e He. destruct (Hsplit e He) as [H|[->|H]].
    + apply leb_false_ltb. exact (Hpre e H).
    + apply ltb_irrefl.
    + exact (Hpost e H).
  - intros e He Hkey. destruct (Hsplit e He) as [H|[->|H]].
    + exact (Hpre e H).
    + lia.
    + specialize (Hafter e H). unfold key_ltb in Hafter. lia.
Qed.

Lemma buildFromFrequency_445 :
  buildFromFrequency 445 undefined browser = (Ok (val A4_in_browser), browser_after_445).
Proof. vm_compute. reflexivity. Defined.

Lemma buildFromFrequency_closest_witness :
  buildFromFrequency 445 undefined browser = (Ok (val A4_in_browser), browser_after_445) /\
  exists c,
    In c getNotesInfo /\
    carries c A4_in_browser /\
    (forall e, In e getNotesInfo ->
               (distance 445 e <? distance 445 c)%float = false) /\
    (forall e, In e getNotesInfo ->
               NoteInfo.keynb e < NoteInfo.keynb c ->
               (distance 445 e <=? distance 445 c)%float = false).
Proof.
  split.
  - exact buildFromFrequency_445.
  - apply (buildFromFrequency_closest 445 undefined browser A4_in_browser
             browser_after_445).
    exact buildFromFrequency_445.
Defined.

Lemma reduce_closer_nan :
  lodash.reduce (closer nan) getNotesInfo = nth_error getNotesInfo 0.
Proof. vm_compute. reflexivity. Qed.

(** X7: the range test lets NaN through, since both of its comparisons are
    false on NaN, and no element is then closer than the first: the note
    returned is key 1, "A0".  Both infinities are refused. *)
Theorem buildFromFrequency_not_finite (handle : js AudioContext) (w : World) :
  (exists o w',
      buildFromFrequency nan handle w = (Ok (val o), w') /\
      pianoKeyNb o = val 1 /\ name o = val "A0") /\
  buildFromFrequency infinity handle w =
    (Ok null, write_console (error_NOTEPLAYER (InvalidFrequency infinity)) w) /\
  buildFromFrequency neg_infinity handle w =
    (Ok null, write_console (error_NOTEPLAYER (InvalidFrequency neg_infinity)) w).
Proof.
  destruct table_ends as (lowest & highest & Hlo & _ & Hhi & Elo & Ehi).
  split; [|split].
  - assert (Hin : In lowest getNotesInfo) by exact (nth_error_In _ _ Hlo).
    assert (Hred : lodash.reduce (closer nan) getNotesInfo = Some lowest).
    { rewrite reduce_closer_nan. exact Hlo. }
    assert (Hout : out_of_range nan lowest highest = false).
    { unfold out_of_range. rewrite Elo, Ehi. reflexivity. }
    rewrite (buildFromFrequency_in _ handle w _ _ lowest Hlo Hhi Hout Hred).
    destruct (buildFromName_of_element lowest handle
                (write_console (log_closest (NoteInfo.freq lowest) (NoteInfo.name lowest)) w)
                Hin) as (o & w' & Hb & Hkey & _ & Hname & _).
    exists o, w'. split; [exact Hb|].
    destruct find_key_1 as (n & Hfind & Hn).
    destruct (find_In _ _ _ Hfind) as (Hn_in & Hk). apply Z.eqb_eq in Hk.
    assert (Hsame : NoteInfo.keynb lowest = 1).
    { pose proof table_key_list as Hkeys.
      apply (f_equal (fun l => nth_error l 0)) in Hkeys.
      rewrite nth_error_map, Hlo in Hkeys. simpl in Hkeys.
      injection Hkeys as Hkeys. exact Hkeys. }
    assert (Heq : n = lowest).
    { apply (NoDup_map_injective NoteInfo.keynb getNotesInfo table_keys_NoDup);
        [exact Hn_in | exact Hin | rewrite Hk, Hsame; reflexivity]. }
    subst n. rewrite Hkey, Hname, Hsame, Hn. split; reflexivity.
  - apply (buildFromFrequency_out _ _ _ _ _ Hlo Hhi).
    unfold out_of_range. rewrite Elo, Ehi. reflexivity.
  - apply (buildFromFrequency_out _ _ _ _ _ Hlo Hhi).
    unfold out_of_range. rewrite Elo. reflexivity.
Qed.

(** ** The tuning of the table *)

Lemma equal_temperedb_sound eps e :
  equal_temperedb eps e = true ->
  exists q,
    float_to_Q (NoteInfo.freq e) = Some q /\
    equal_tempered (NoteInfo.keynb e) q eps.
Proof.
  unfold equal_temperedb, equal_tempered.
  destruct (float_to_Q (NoteInfo.freq e)) as [q|]; [|discriminate].
  intros H. apply andb_prop in H as [H Hhi]. apply andb_prop in H as [Hpos Hlo].
  exists q. split; [reflexivity|]. split; [|split].
  - apply Qnot_le_lt. intros Hle. apply Qle_bool_iff in Hle.
    rewrite Hle in Hpos. discriminate Hpos.
  - apply Qle_bool_iff in Hlo.
    rewrite <- Qmult_assoc. exact Hlo.
  - apply Qle_bool_iff in Hhi.
    rewrite <- Qmult_assoc. exact Hhi.
Qed.

(** X8: every frequency of the table is within a relative distance of 1e-14
    of the equal-tempered pitch of its key, [440 * 2^((k - 49) / 12)]: the 88
    successive roundings of the running product do not accumulate beyond
    that. *)
Theorem getNotesInfo_equal_tempered :
  Forall (fun e =>
            exists q,
              float_to_Q (NoteInfo.freq e) = Some q /\
              equal_tempered (NoteInfo.keynb e) q (1 # 100000000000000))
         getNotesInfo.
Proof.
  apply Forall_forall. intros e Hin. apply equal_temperedb_sound.
  assert (H : forallb (equal_temperedb (1 # 100000000000000)) getNotesInfo = true)
    by (vm_compute; reflexivity).
  rewrite forallb_forall in H. exact (H e Hin).
Qed.

(** ** The wiring of a returned note *)

Lemma builders_wire_notes_aux (o : notePlayer) :
  resolved o -> wired_or_bare o.
Proof.
  intros Hres.
  destruct (resolved_from_table o Hres) as (n & handle & w & w' & _ & Hnew).
  exact (proj2 (proj2 (proj2 (proj2 (proj2 (new_notePlayer_facts _ _ _ _ _ Hnew)))))).
Qed.

(** X9: a note returned by any of the three builders is wired or bare:
    when it holds an audio context its destination node is that context's
    destination, and when it holds none ([undefined] or [null]) it has no
    destination node. *)
Theorem builders_wire_notes (o : notePlayer) :
  resolved o -> wired_or_bare o.
Proof.
  intros Hres.
  destruct (resolved_from_table o Hres) as (n & handle & w & w' & _ & Hnew).
  rewrite new_notePlayer_cases in Hnew. unfold wired_or_bare.
  destruct handle; simpl in Hnew; [destruct (host w)| |];
    injection Hnew as <- _; reflexivity.
Qed.

Lemma builders_wire_notes_witness :
  resolved A4_in_browser /\ wired_or_bare A4_in_browser.
Proof.
  split.
  - exact A4_in_browser_resolved.
  - apply (builders_wire_notes A4_in_browser). exact A4_in_browser_resolved.
Defined.

(** ** The random source *)

Lemma constructed_draws handle n w line o w' :
  new (notePlayer_body (NoteInfo.set_audioContext handle n)) (write_console line w)
  = (Ok o, w') ->
  draw_accounting w (Ok (val o), w').
Proof.
  intros Hnew.
  destruct (new_notePlayer_facts _ _ _ _ _ Hnew) as (_ & _ & Hd & Hn & Hr & _).
  unfold draw_accounting. simpl. simpl in Hd, Hn, Hr.
  split; [exact Hr|]. split; [exact Hn|exact Hd].
Qed.

Lemma constructed_draws_same_world handle n w o w' :
  new (notePlayer_body (NoteInfo.set_audioContext handle n)) w = (Ok o, w') ->
  draw_accounting w (Ok (val o), w').
Proof.
  intros Hnew.
  destruct (new_notePlayer_facts _ _ _ _ _ Hnew) as (_ & _ & Hd & Hn & Hr & _).
  unfold draw_accounting. simpl.
  split; [exact Hr|]. split; [exact Hn|exact Hd].
Qed.

Lemma buildFromName_draws noteName handle w line :
  draw_accounting w (buildFromName noteName handle (write_console line w)).
Proof.
  destruct (lodash.find (fun e => (NoteInfo.name e =? noteName)%string) getNotesInfo)
    as [n|] eqn:Hfind.
  - destruct (new_notePlayer_identity (NoteInfo.set_audioContext handle n)
                (write_console line w)) as (o & w' & Hnew & _).
    rewrite (buildFromName_found _ _ _ _ _ _ Hfind Hnew).
    exact (constructed_draws _ _ _ _ _ _ Hnew).
  - rewrite (buildFromName_missing _ _ _ Hfind). split; reflexivity.
Qed.

(** X10: a builder call consumes a value of the random source exactly when
    it returns a note, it consumes one, and that value is the note's
    duration; a call that returns [null] or throws consumes none. *)
Theorem builders_draw_once (handle : js AudioContext) (w : World) :
  (forall noteName, draw_accounting w (buildFromName noteName handle w)) /\
  (forall noteFreq, draw_accounting w (buildFromFrequency noteFreq handle w)) /\
  (forall noteKeyNb, draw_accounting w (buildFromKeyNb noteKeyNb handle w)).
Proof.
  split; [|split].
  - intros noteName.
    destruct (lodash.find (fun e => (NoteInfo.name e =? noteName)%string) getNotesInfo)
      as [n|] eqn:Hfind.
    + destruct (new_notePlayer_identity (NoteInfo.set_audioContext handle n) w)
        as (o & w' & Hnew & _).
      rewrite (buildFromName_found _ _ _ _ _ _ Hfind Hnew).
      exact (constructed_draws_same_world _ _ _ _ _ Hnew).
    + rewrite (buildFromName_missing _ _ _ Hfind). split; reflexivity.
  - intros noteFreq.
    destruct (buildFromFrequency_cases noteFreq handle w) as [H|(c & _ & H)];
      rewrite H.
    + split; reflexivity.
    + apply buildFromName_draws.
  - intros noteKeyNb.
    destruct (lodash.find (fun e => NoteInfo.keynb e =? noteKeyNb) getNotesInfo)
      as [n|] eqn:Hfind.
    + destruct (new_notePlayer_identity (NoteInfo.set_audioContext handle n) w)
        as (o & w' & Hnew & _).
      rewrite (buildFromKeyNb_found _ _ _ _ _ _ Hfind Hnew).
      exact (constructed_draws_same_world _ _ _ _ _ Hnew).
    + rewrite (buildFromKeyNb_missing _ _ _ Hfind). split; reflexivity.
Qed.

(** ** The other mutators *)

(** X11: [setAudioContext] ignores [null] as it ignores [undefined], and
    with a context it replaces [audioContext] alone: on a note returned by a
    builder and wired to the context [c], [setAudioContext(c')] with another
    context leaves [destinationNode] at the destination of [c], so the note
    is no longer wired to its own context. *)
Theorem setAudioContext_keeps_destination (o : notePlayer) (c c' : AudioContext) :
  resolved o ->
  audioContext o = val c ->
  c' <> c ->
  setAudioContext undefined o = o /\
  setAudioContext null o = o /\
  audioContext (setAudioContext (val c') o) = val c' /\
  destinationNode (setAudioContext (val c') o) = val (destination c) /\
  ~ wired_or_bare (setAudioContext (val c') o).
Proof.
  intros Hres Hc Hneq.
  pose proof (builders_wire_notes_aux o Hres) as Hw.
  unfold wired_or_bare in Hw. rewrite Hc in Hw.
  destruct o as [k f oc n d v ac dn]. simpl in Hc, Hw. subst ac dn.
  repeat (split; [reflexivity|]).
  unfold wired_or_bare. simpl. intros [= E]. apply Hneq. symmetry. exact E.
Qed.

Lemma setAudioContext_keeps_destination_witness :
  resolved A4_in_browser /\
  audioContext A4_in_browser = val (mkAudioContext 0) /\
  other_context <> mkAudioContext 0 /\
  setAudioContext undefined A4_in_browser = A4_in_browser /\
  setAudioContext null A4_in_browser = A4_in_browser /\
  audioContext (setAudioContext (val other_context) A4_in_browser) = val other_context /\
  destinationNode (setAudioContext (val other_context) A4_in_browser)
  = val (destination (mkAudioContext 0)) /\
  ~ wired_or_bare (setAudioContext (val other_context) A4_in_browser).
Proof.
  split; [exact A4_in_browser_resolved|].
  split; [reflexivity|].
  split; [discriminate|].
  apply (setAudioContext_keeps_destination A4_in_browser (mkAudioContext 0) other_context).
  - exact A4_in_browser_resolved.
  - reflexivity.
  - discriminate.
Defined.

(** X12: [setDestinationNode(undefined)] does not fall back on the
    context's destination: it reads the property [audiocontext], which no
    note has, so a [TypeError] is thrown and the note is unchanged, whatever
    the note.  Any other argument, [null] included, is stored in
    [destinationNode] and nothing else changes; in particular
    [setAudioContext(c)] followed by [setDestinationNode(c.destination)]
    gives a wired note. *)
Theorem setDestinationNode_contract (self : notePlayer) :
  setDestinationNode undefined self =
    (Throw (TypeError "Cannot read property 'destination'"), self) /\
  setDestinationNode null self = (Ok tt, set_destinationNode null self) /\
  (forall node,
      setDestinationNode (val node) self = (Ok tt, set_destinationNode (val node) self)) /\
  (forall c,
      let r := setDestinationNode (val (destination c)) (setAudioContext (val c) self) in
      fst r = Ok tt /\
      audioContext (snd r) = val c /\
      wired_or_bare (snd r)).
Proof.
  repeat split.
Qed.

(** X13: the mutators act on separate fields and so commute, and of two
    calls of the same mutator the later one wins unless its argument is
    [undefined]. *)
Theorem mutators_compose (self : notePlayer)
    (d d' v v' : js float) (ac : js AudioContext) :
  setDuration d (setVolume v self) = setVolume v (setDuration d self) /\
  setDuration d (setAudioContext ac self) = setAudioContext ac (setDuration d self) /\
  setVolume v (setAudioContext ac self) = setAudioContext ac (setVolume v self) /\
  setDuration d' (setDuration d self) =
    setDuration (match d' with undefined => d | _ => d' end) self /\
  setVolume v' (setVolume v self) =
    setVolume (match v' with undefined => v | _ => v' end) self.
Proof.
  destruct self as [k f oc n du vo c dn].
  repeat split; try reflexivity.
  - destruct d', d; reflexivity.
  - destruct v', v; reflexivity.
Qed.

(** ** Failed constructions on the console *)

Lemma new_notePlayer_trace handle n w o w' :
  new (notePlayer_body (NoteInfo.set_audioContext handle n)) w = (Ok o, w') ->
  construction_logged (console w) o w'.
Proof.
  rewrite new_notePlayer_cases. unfold construction_logged.
  destruct handle; simpl; [destruct (host w)| |];
    intros [= <- <-]; simpl; try reflexivity; eexists; reflexivity.
Qed.

(** X14: a builder never returns a bare note silently.  When the returned
    note holds no audio context, the last line on the console is the error
    caught in the constructor; when it holds one, the constructor wrote
    nothing.  Before that, [buildFromFrequency] has written its
    closest-frequency line, which shows the frequency and the name of the
    note it returns, and the two other builders have written nothing.  A
    call that returns no note writes its own error line and no other, and
    [buildFromKeyNb], which throws, writes none. *)
Theorem bare_notes_are_logged (handle : js AudioContext) (w : World) :
  (forall noteName,
      let r := buildFromName noteName handle w in
      match fst r with
      | Ok (val o) => construction_logged (console w) o (snd r)
      | _ => console (snd r)
             = (console w ++ [error_NOTEPLAYER (InvalidNoteName noteName)])%list
      end) /\
  (forall noteKeyNb,
      let r := buildFromKeyNb noteKeyNb handle w in
      match fst r with
      | Ok (val o) => construction_logged (console w) o (snd r)
      | _ => console (snd r) = console w
      end) /\
  (forall noteFreq,
      let r := buildFromFrequency noteFreq handle w in
      match fst r with
      | Ok (val o) =>
          exists c,
            In c getNotesInfo /\
            carries c o /\
            construction_logged
              (console w ++ [log_closest (NoteInfo.freq c) (NoteInfo.name c)])%list
              o (snd r)
      | _ => console (snd r)
             = (console w ++ [error_NOTEPLAYER (InvalidFrequency noteFreq)])%list
      end).
Proof.
  split; [|split].
  - intros noteName.
    destruct (lodash.find (fun e => (NoteInfo.name e =? noteName)%string) getNotesInfo)
      as [n|] eqn:Hfind.
    + destruct (new_notePlayer_identity (NoteInfo.set_audioContext handle n) w)
        as (o & w' & Hnew & _).
      rewrite (buildFromName_found _ _ _ _ _ _ Hfind Hnew). cbn [fst snd].
      exact (new_notePlayer_trace _ _ _ _ _ Hnew).
    + rewrite (buildFromName_missing _ _ _ Hfind). reflexivity.
  - intros noteKeyNb.
    destruct (lodash.find (fun e => NoteInfo.keynb e =? noteKeyNb) getNotesInfo)
      as [n|] eqn:Hfind.
    + destruct (new_notePlayer_identity (NoteInfo.set_audioContext handle n) w)
        as (o & w' & Hnew & _).
      rewrite (buildFromKeyNb_found _ _ _ _ _ _ Hfind Hnew). cbn [fst snd].
      exact (new_notePlayer_trace _ _ _ _ _ Hnew).
    + rewrite (buildFromKeyNb_missing _ _ _ Hfind). reflexivity.
  - intros noteFreq.
    destruct table_ends as (lowest & highest & Hlo & _ & Hhi & _).
    destruct (out_of_range noteFreq lowest highest) eqn:Hout.
    + rewrite (buildFromFrequency_out _ _ _ _ _ Hlo Hhi Hout). reflexivity.
    + destruct (reduce_selects (closer noteFreq) getNotesInfo
                  (closer_selects noteFreq) getNotesInfo_not_empty)
        as (c & Hred & Hin).
      rewrite (buildFromFrequency_in _ handle w _ _ c Hlo Hhi Hout Hred).
      set (line := log_closest (NoteInfo.freq c) (NoteInfo.name c)).
      destruct (new_notePlayer_identity (NoteInfo.set_audioContext handle c)
                  (write_console line w)) as (o & w' & Hnew & _).
      rewrite (buildFromName_found _ _ _ _ _ _ (find_name_self c Hin) Hnew). cbn [fst snd].
      exists c. split; [exact Hin|].
      split; [exact (proj1 (new_notePlayer_facts _ _ _ _ _ Hnew))|].
      exact (new_notePlayer_trace _ _ _ _ _ Hnew).
Qed.
